(** * Developer scripts of another-ra: naming helpers, manifest report,
      schema extractor

    Shallow embedding of

    - [scripts/generate-all-tables.py]: the case-conversion helpers
      [to_camel_case], [to_pascal_case], [to_kebab_case], the static
      [TABLES] list and the loop that prints the manifest;
    - [scripts/get_company_schema_detailed.py]: [get_all_tables], the two
      [next(...)] selections and the [json.dump] of the result.

    Python [str] values are sequences of Unicode code points, so a string
    is a list of code points here.  Exceptions are values of [exn]; a
    function that can raise returns a [result].  Printing and the file
    written by the extractor are threaded through a small state-and-error
    monad [Py]. *)

From Stdlib Require Import List NArith ZArith Bool Ascii Lia Permutation.
From Stdlib Require String.
From Stdlib Require Import DecimalString.
Import ListNotations.
Import String.StringSyntax.

Abbreviation string := String.string.
Bind Scope string_scope with String.string.

Set Warnings "-register-all".

(* ================================================================== *)
(** ** Python strings *)
(* ================================================================== *)

Module PyStr.

Local Open Scope N_scope.

(** A code point. *)
Definition char := N.

(** A Python [str]. *)
Definition py_str := list char.

(** A literal of the source, written as a Rocq string (ASCII only). *)
Definition str (s : string) : py_str :=
  map N_of_ascii (String.list_ascii_of_string s).

Definition in_range (lo hi c : char) : bool :=
  (N.leb lo c && N.leb c hi)%bool.

(** [A-Z], [a-z], [0-9] as code point ranges. *)
Definition is_upper (c : char) : bool := in_range 65 90 c.
Definition is_lower (c : char) : bool := in_range 97 122 c.
Definition is_digit (c : char) : bool := in_range 48 57 c.

(** The class [a-zA-Z0-9] of the two regular expressions. *)
Definition is_alnum (c : char) : bool :=
  (is_lower c || is_upper c || is_digit c)%bool.

(** Lowercase alphanumerics, [a-z0-9]. *)
Definition is_lower_alnum (c : char) : bool :=
  (is_lower c || is_digit c)%bool.

(** Unicode whitespace as CPython decides it ([Py_UNICODE_ISSPACE]): the
    test behind both [\s] in a [str] pattern and [str.split()] without
    arguments. *)
Definition is_space (c : char) : bool :=
  (in_range 9 13 c            (* \t \n \v \f \r *)
   || in_range 28 31 c        (* FS GS RS US *)
   || N.eqb c 32              (* space *)
   || N.eqb c 133             (* U+0085 *)
   || N.eqb c 160             (* U+00A0 *)
   || N.eqb c 5760            (* U+1680 *)
   || in_range 8192 8202 c    (* U+2000 .. U+200A *)
   || N.eqb c 8232            (* U+2028 *)
   || N.eqb c 8233            (* U+2029 *)
   || N.eqb c 8239            (* U+202F *)
   || N.eqb c 8287            (* U+205F *)
   || N.eqb c 12288)%bool.    (* U+3000 *)

Definition hyphen : char := 45.

(** [str.lower] and [str.upper], one code point at a time.  Only the ASCII
    letters are mapped: in the scripts these methods are applied to tokens
    that survived the strip to [a-zA-Z0-9] (lemma [words_alnum] below),
    and there they are Python's. *)
Definition lower_char (c : char) : char :=
  if is_upper c then c + 32 else c.

Definition upper_char (c : char) : char :=
  if is_lower c then c - 32 else c.

Definition lower (s : py_str) : py_str := map lower_char s.
Definition upper (s : py_str) : py_str := map upper_char s.

(** [str.capitalize]: first character upper-cased, all others lower-cased. *)
Definition capitalize (s : py_str) : py_str :=
  match s with
  | [] => []
  | c :: rest => upper_char c :: lower rest
  end.

(** [sep.join(parts)]. *)
Fixpoint join (sep : py_str) (parts : list py_str) : py_str :=
  match parts with
  | [] => []
  | [p] => p
  | p :: ps => p ++ sep ++ join sep ps
  end.

(** [re.sub(r'[^a-zA-Z0-9\s]', '', s)]: every character outside the class
    is deleted, the others are kept in place. *)
Definition keep (c : char) : bool := (is_alnum c || is_space c)%bool.

Definition re_sub_strip (s : py_str) : py_str := filter keep s.

(** [s.split()]: runs of whitespace separate the words; leading and
    trailing whitespace give no empty word.  [cur] is the word being read,
    most recent character first. *)
Fixpoint split_from (cur : py_str) (s : py_str) : list py_str :=
  match s with
  | [] => match cur with [] => [] | _ => [rev cur] end
  | c :: s' =>
      if is_space c then
        match cur with
        | [] => split_from [] s'
        | _ => rev cur :: split_from [] s'
        end
      else split_from (c :: cur) s'
  end.

Definition split (s : py_str) : list py_str := split_from [] s.

(** Equality of strings, as [==] on two [str]. *)
Fixpoint str_eqb (a b : py_str) : bool :=
  match a, b with
  | [], [] => true
  | x :: a', y :: b' => (N.eqb x y && str_eqb a' b')%bool
  | _, _ => false
  end.

(** [str(n)] of a non-negative [int] such as a [len]. *)
Definition str_of_nat (n : nat) : py_str :=
  str (NilZero.string_of_uint (Nat.to_uint n)).

(** [str(z)] of an [int]. *)
Definition str_of_Z (z : Z) : py_str :=
  str (NilZero.string_of_int (Z.to_int z)).

(** A string without whitespace. *)
Definition no_space (w : py_str) : Prop := Forall (fun c => is_space c = false) w.

(** A word that can be joined with [sep] and found again: non-empty and
    without the separator character. *)
Definition word_ok (sep : char) (w : py_str) : Prop := w <> [] /\ ~ In sep w.

End PyStr.
Import PyStr.

(* ================================================================== *)
(** ** Exceptions and results *)
(* ================================================================== *)

Inductive exn : Type :=
| IndexError
| AttributeError
| TypeError
| JSONDecodeError.

Inductive result (A : Type) : Type :=
| Ok (a : A)
| Raise (e : exn).
Arguments Ok {A} a.
Arguments Raise {A} e.

Definition bind_result {A B} (r : result A) (k : A -> result B) : result B :=
  match r with
  | Ok a => k a
  | Raise e => Raise e
  end.

(* ================================================================== *)
(** ** Decoded JSON values *)
(* ================================================================== *)

(** What [json.loads] builds: [None], [bool], [int], [float], [str],
    [list], [dict].  A [dict] is the list of its items in insertion order
    (keys are distinct in a dict); a float is opaque and carried as its
    literal. *)
Inductive jvalue : Type :=
| JNull
| JBool (b : bool)
| JInt (n : Z)
| JFloat (literal : py_str)
| JStr (s : py_str)
| JArr (items : list jvalue)
| JObj (items : list (py_str * jvalue)).

(** The binding of [key] in the items of a dict. *)
Fixpoint lookup (key : py_str) (items : list (py_str * jvalue)) : option jvalue :=
  match items with
  | [] => None
  | (k, v) :: items' => if str_eqb k key then Some v else lookup key items'
  end.

(** [d.get(key, default)]; only a dict has the method. *)
Definition py_get (d : jvalue) (key : py_str) (default : jvalue) : result jvalue :=
  match d with
  | JObj items =>
      match lookup key items with
      | Some v => Ok v
      | None => Ok default
      end
  | _ => Raise AttributeError
  end.

(** [v == s] for a decoded value [v] and a [str] [s]. *)
Definition py_eq_str (v : jvalue) (s : py_str) : bool :=
  match v with
  | JStr s' => str_eqb s' s
  | _ => false
  end.

(** [iter(v)]: the elements of a list, the keys of a dict, the characters
    of a string; nothing else among decoded values is iterable. *)
Definition py_iter (v : jvalue) : result (list jvalue) :=
  match v with
  | JArr items => Ok items
  | JObj items => Ok (map (fun kv => JStr (fst kv)) items)
  | JStr s => Ok (map (fun c => JStr [c]) s)
  | _ => Raise TypeError
  end.

(** [len(v)]. *)
Definition py_len (v : jvalue) : result nat :=
  match v with
  | JArr items => Ok (length items)
  | JObj items => Ok (length items)
  | JStr s => Ok (length s)
  | _ => Raise TypeError
  end.

(** [None] for an absent selection, as it is stored in a dict value. *)
Definition of_option (o : option jvalue) : jvalue :=
  match o with
  | Some v => v
  | None => JNull
  end.

(* ================================================================== *)
(** ** The effects of a script *)
(* ================================================================== *)

(** What a run leaves behind: the arguments of the [print] calls in order
    (each is followed by a newline on the console), and the value last
    handed to [json.dump] for [docs/company-table-schema-detailed.json],
    whose text is the rendering of that value. *)
Record world : Type := World {
  stdout : list py_str;
  schema_file : option jvalue
}.

Definition Py (A : Type) : Type := world -> result A * world.

Definition ret {A} (a : A) : Py A := fun w => (Ok a, w).

Definition bind {A B} (m : Py A) (k : A -> Py B) : Py B :=
  fun w =>
    match m w with
    | (Ok a, w') => k a w'
    | (Raise e, w') => (Raise e, w')
    end.

(** A pure computation that may raise, inside a script. *)
Definition lift {A} (r : result A) : Py A := fun w => (r, w).

Declare Scope py_scope.
Delimit Scope py_scope with py.
Notation "x <- m ;; k" := (bind m (fun x => k))
  (at level 61, m at next level, right associativity) : py_scope.
Notation "m ;; k" := (bind m (fun _ => k))
  (at level 61, right associativity) : py_scope.
Open Scope py_scope.

Definition print (line : py_str) : Py unit :=
  fun w => (Ok tt, {| stdout := stdout w ++ [line]; schema_file := schema_file w |}).

(** [with open(path, 'w') as f: json.dump(v, f, ...)] for the one path the
    extractor writes; the directory is taken to exist. *)
Definition json_dump (v : jvalue) : Py unit :=
  fun w => (Ok tt, {| stdout := stdout w; schema_file := Some v |}).

(** The state a script starts from: nothing printed, no file written. *)
Definition fresh : world := {| stdout := []; schema_file := None |}.

(** A computation that leaves the schema file as it found it. *)
Definition keeps_file {A} (m : Py A) : Prop :=
  forall w, schema_file (snd (m w)) = schema_file w.

(** [for x in l: body]. *)
Fixpoint for_each {A} (l : list A) (body : A -> Py unit) : Py unit :=
  match l with
  | [] => ret tt
  | x :: l' => body x ;; for_each l' body
  end.

(* ================================================================== *)
(** ** generate-all-tables.py *)
(* ================================================================== *)

Module GenerateAllTables.

(** [words[0]] on a list. *)
Definition index0 {A} (l : list A) : result A :=
  match l with
  | [] => Raise IndexError
  | x :: _ => Ok x
  end.

(** [words[1:]]. *)
Definition slice_from_1 {A} (l : list A) : list A := tl l.

Definition to_camel_case (s : py_str) : result py_str :=
  let s := re_sub_strip s in
  let words := split s in
  bind_result (index0 words) (fun w0 =>
  Ok (lower w0 ++ join [] (map capitalize (slice_from_1 words)))).

(** [camel[0].upper() + camel[1:] if camel else ''], after the call of
    [to_camel_case], whose exception propagates. *)
Definition to_pascal_case (s : py_str) : result py_str :=
  bind_result (to_camel_case s) (fun camel =>
  Ok (match camel with
      | [] => []
      | c :: rest => upper [c] ++ rest
      end)).

Definition to_kebab_case (s : py_str) : py_str :=
  let s := re_sub_strip s in
  join [hyphen] (map lower (split s)).

(** An entry of a [relationships] list. *)
Record relationship : Type := Relationship {
  field : py_str;
  table : py_str;
  nameField : py_str
}.

(** An entry of [TABLES]. *)
Record table_config : Type := TableConfig {
  name : py_str;
  tableName : py_str;
  entityName : py_str;
  entityNamePlural : py_str;
  routePath : py_str;
  pagePath : py_str;
  navName : py_str;
  relationships : list relationship
}.

Definition rel (f : string) : relationship :=
  {| field := str f; table := str f; nameField := str "Name" |}.

Definition TABLES : list table_config :=
  [ {| name := str "Normalized Activities";
       tableName := str "Normalized Activities";
       entityName := str "Normalized Activity";
       entityNamePlural := str "Normalized Activities";
       routePath := str "normalized-activities";
       pagePath := str "normalized-activities";
       navName := str "Normalized Activities";
       relationships := [] |};
    {| name := str "EF/Detailed G";
       tableName := str "EF/Detailed G";
       entityName := str "EF/Detailed G";
       entityNamePlural := str "EF/Detailed G";
       routePath := str "ef-detailed-g";
       pagePath := str "ef-detailed-g";
       navName := str "EF/Detailed G";
       relationships :=
         [rel "EF GWP"; rel "GHG TYPE"; rel "Std Emission factors"] |};
    {| name := str "Scope";
       tableName := str "Scope";
       entityName := str "Scope";
       entityNamePlural := str "Scopes";
       routePath := str "scope";
       pagePath := str "scope";
       navName := str "Scope";
       relationships := [] |};
    {| name := str "scope & categorisation";
       tableName := str "scope & categorisation";
       entityName := str "Scope & Categorisation";
       entityNamePlural := str "Scope & Categorisations";
       routePath := str "scope-categorisation";
       pagePath := str "scope-categorisation";
       navName := str "Scope & Categorisation";
       relationships := [rel "Scope"] |};
    {| name := str "Unit";
       tableName := str "Unit";
       entityName := str "Unit";
       entityNamePlural := str "Units";
       routePath := str "unit";
       pagePath := str "unit";
       navName := str "Unit";
       relationships := [] |};
    {| name := str "Unit Conversion";
       tableName := str "Unit Conversion";
       entityName := str "Unit Conversion";
       entityNamePlural := str "Unit Conversions";
       routePath := str "unit-conversion";
       pagePath := str "unit-conversion";
       navName := str "Unit Conversion";
       relationships := [rel "Activity Density"] |};
    {| name := str "Standard ECM catalog";
       tableName := str "Standard ECM catalog";
       entityName := str "Standard ECM Catalog";
       entityNamePlural := str "Standard ECM Catalogs";
       routePath := str "standard-ecm-catalog";
       pagePath := str "standard-ecm-catalog";
       navName := str "Standard ECM Catalog";
       relationships := [rel "Standard ECM Classification"] |};
    {| name := str "Standard ECM Classification";
       tableName := str "Standard ECM Classification";
       entityName := str "Standard ECM Classification";
       entityNamePlural := str "Standard ECM Classifications";
       routePath := str "standard-ecm-classification";
       pagePath := str "standard-ecm-classification";
       navName := str "Standard ECM Classification";
       relationships := [rel "Standard ECM catalog"] |} ].

(** The two decorations of the console lines: U+1F4CB and U+2705. *)
Definition clipboard : char := 128203%N.
Definition check_mark : char := 9989%N.

(** The three lines printed before the loop. *)
Definition print_header (tables : list table_config) : Py unit :=
  print (clipboard :: str " Will generate files for "
           ++ str_of_nat (length tables) ++ str " tables") ;;
  print (str "   Note: This script shows what will be generated. Actual file generation") ;;
  print (str "   will be done manually to ensure proper relationship handling."
           ++ [10%N]).

(** The body of [for table in TABLES]. *)
Definition report_table (table : table_config) : Py unit :=
  camel <- lift (to_camel_case (name table)) ;;
  pascal <- lift (to_pascal_case (name table)) ;;
  let kebab := routePath table in
  print (check_mark :: str " " ++ name table ++ str ":") ;;
  print (str "   - Types: " ++ pascal ++ str ".ts") ;;
  print (str "   - Service: " ++ pascal ++ str "AirtableService.ts") ;;
  print (str "   - Controller: " ++ pascal ++ str "Controller.ts") ;;
  print (str "   - Routes: " ++ camel ++ str "Routes.ts") ;;
  print (str "   - API Client: " ++ camel ++ str ".ts") ;;
  print (str "   - Config: " ++ camel ++ str "Config.tsx") ;;
  print (str "   - Page: " ++ kebab ++ str "/page.tsx") ;;
  print (str "   - Layout: " ++ kebab ++ str "/layout.tsx") ;;
  match relationships table with
  | [] => ret tt
  | _ :: _ =>
      print (str "   - Relationships: "
               ++ str_of_nat (length (relationships table)))
  end ;;
  print [].

(** The statements of the script after the definitions, for a table list. *)
Definition report (tables : list table_config) : Py unit :=
  print_header tables ;;
  for_each tables report_table.

(** The script. *)
Definition main : Py unit := report TABLES.

(** *** The claims about the helpers, in the spec's words *)

(** "uppercases only its first letter while leaving the remaining
    characters of that token exactly as they appear in the input". *)
Definition upper_first (w : py_str) : py_str :=
  match w with
  | [] => []
  | c :: rest => upper_char c :: rest
  end.

(** The lines the manifest names for one descriptor, in the stated order,
    for given camel and pascal forms; [rel_lines] is the optional
    relationships line. *)
Definition artifact_lines (t : table_config) (camel pascal : py_str)
    (rel_lines : list py_str) : list py_str :=
  [ check_mark :: str " " ++ name t ++ str ":";
    str "   - Types: " ++ pascal ++ str ".ts";
    str "   - Service: " ++ pascal ++ str "AirtableService.ts";
    str "   - Controller: " ++ pascal ++ str "Controller.ts";
    str "   - Routes: " ++ camel ++ str "Routes.ts";
    str "   - API Client: " ++ camel ++ str ".ts";
    str "   - Config: " ++ camel ++ str "Config.tsx";
    str "   - Page: " ++ routePath t ++ str "/page.tsx";
    str "   - Layout: " ++ routePath t ++ str "/layout.tsx" ]
  ++ rel_lines ++ [ [] ].

Definition relationships_line (n : nat) : py_str :=
  str "   - Relationships: " ++ str_of_nat n.

Definition header_lines (n : nat) : list py_str :=
  [ clipboard :: str " Will generate files for " ++ str_of_nat n ++ str " tables";
    str "   Note: This script shows what will be generated. Actual file generation";
    str "   will be done manually to ensure proper relationship handling." ++ [10%N] ].

(** What the manifest owes one descriptor: its block of lines, with the
    camel and pascal forms of the display name, the route path as it is in
    the descriptor, and a relationships line exactly when there are
    relationships, giving their number. *)
Definition manifest_block (t : table_config) (block : list py_str) : Prop :=
  exists camel pascal rel_lines,
    to_camel_case (name t) = Ok camel /\
    to_pascal_case (name t) = Ok pascal /\
    (relationships t = [] -> rel_lines = []) /\
    (relationships t <> [] ->
       rel_lines = [relationships_line (length (relationships t))]) /\
    block = artifact_lines t camel pascal rel_lines.

End GenerateAllTables.
Import GenerateAllTables.

(* ================================================================== *)
(** ** get_company_schema_detailed.py *)
(* ================================================================== *)

Module GetCompanySchema.

Definition SYSTEM_CONFIG_BASE_ID : py_str := str "appGtLbKhmNkkTLVL".
Definition COMPANY_TABLE_ID : py_str := str "tbl82H6ezrakMSkV1".
Definition DIVISION_TABLE_ID : py_str := str "tblLIRnxlCNotH2FY".

(** What [requests.get] hands back, as far as the script reads it:
    [json] is the outcome of [response.json()], the decoding of the body. *)
Record Response : Type := {
  status_code : Z;
  text : py_str;
  json : result jvalue
}.

(** The line printed on a failed fetch. *)
Definition error_line (response : Response) : py_str :=
  str "Error fetching tables: " ++ str_of_Z (status_code response)
    ++ str " - " ++ text response.

(** [get_all_tables], from the response of its request on. *)
Definition get_all_tables (response : Response) : Py jvalue :=
  if Z.eqb (status_code response) 200 then
    body <- lift (json response) ;;
    lift (py_get body (str "tables") (JArr []))
  else
    print (error_line response) ;;
    ret (JArr []).

(** [next((t for t in ts if t.get('id') == wanted), None)], the iterable
    already turned into its elements: the scan stops at the first element
    that passes the test, and an element that is not a dict raises when
    it is reached. *)
Fixpoint next_with_id (wanted : py_str) (ts : list jvalue) : result (option jvalue) :=
  match ts with
  | [] => Ok None
  | t :: ts' =>
      match py_get t (str "id") JNull with
      | Raise e => Raise e
      | Ok v => if py_eq_str v wanted then Ok (Some t) else next_with_id wanted ts'
      end
  end.

Definition select (wanted : py_str) (all_tables : jvalue) : result (option jvalue) :=
  bind_result (py_iter all_tables) (next_with_id wanted).

(** [if company_table:] on a selection: [None] is false, and a selected
    table is a dict (it answered [get]), true unless empty. *)
Definition selected (o : option jvalue) : bool :=
  match o with
  | None => false
  | Some (JObj []) => false
  | Some _ => true
  end.

Definition success_line : py_str :=
  str "Company table schema extracted successfully!".

Section Script.

(** The text an f-string puts for a decoded value, [str(v)]. *)
Variable format : jvalue -> py_str.

(** [t.get(key)] as printed. *)
Definition shown (t : jvalue) (key : string) : Py py_str :=
  v <- lift (py_get t (str key) JNull) ;;
  ret (format v).

(** [len(t.get('fields', []))] as printed. *)
Definition field_count (t : jvalue) : Py py_str :=
  fields <- lift (py_get t (str "fields") (JArr [])) ;;
  n <- lift (py_len fields) ;;
  ret (str_of_nat n).

Definition summary (label : string) (with_primary : bool)
    (selection : option jvalue) : Py unit :=
  if selected selection then
    let t := of_option selection in
    table_name <- shown t "name" ;;
    count <- field_count t ;;
    print (str label ++ str " table: " ++ table_name ++ str " - "
             ++ count ++ str " fields") ;;
    table_id <- shown t "id" ;;
    print (str "  Table ID: " ++ table_id) ;;
    if with_primary then
      primary <- shown t "primaryFieldId" ;;
      print (str "  Primary Field ID: " ++ primary)
    else ret tt
  else ret tt.

(** The statements of the script, from the response of the request on. *)
Definition main (response : Response) : Py unit :=
  all_tables <- get_all_tables response ;;
  company_table <- lift (select COMPANY_TABLE_ID all_tables) ;;
  division_table <- lift (select DIVISION_TABLE_ID all_tables) ;;
  let output :=
    JObj [ (str "company", of_option company_table);
           (str "division", of_option division_table) ] in
  json_dump output ;;
  print success_line ;;
  summary "Company" true company_table ;;
  summary "Division" false division_table.

End Script.

(** *** The claims about the extractor, in the spec's words *)

(** "a schema object whose 'id' field equals that identifier". *)
Definition has_id (wanted : py_str) (t : jvalue) : bool :=
  match t with
  | JObj items =>
      match lookup (str "id") items with
      | Some (JStr s) => str_eqb s wanted
      | _ => false
      end
  | _ => false
  end.

(** A schema object: a JSON object. *)
Definition is_object (t : jvalue) : bool :=
  match t with
  | JObj _ => true
  | _ => false
  end.

(** [{ "company": null, "division": null }]. *)
Definition null_output : jvalue :=
  JObj [ (str "company", JNull); (str "division", JNull) ].

(** "the 'tables' field of the decoded response body, or the empty list if
    that field is absent". *)
Definition tables_field (items : list (py_str * jvalue)) : jvalue :=
  match lookup (str "tables") items with
  | Some v => v
  | None => JArr []
  end.

(** A string between double quotes, as in a JSON text. *)
Definition quoted (s : py_str) : py_str := 34%N :: s ++ [34%N].

(** A response with a success status other than 200 whose body lists one
    table. *)
Definition created_response : Response :=
  {| status_code := 201;
     text := str "{" ++ quoted (str "tables") ++ str ": [{" ++ quoted (str "id")
               ++ str ": " ++ quoted COMPANY_TABLE_ID ++ str "}]}";
     json := Ok (JObj [ (str "tables",
                         JArr [ JObj [ (str "id", JStr COMPANY_TABLE_ID) ] ]) ]) |}.

(** The same body under status 200. *)
Definition ok_response : Response :=
  {| status_code := 200;
     text := text created_response;
     json := json created_response |}.

(** Sample schema objects: one of another table, the company table, the
    division table, and a second object carrying the company identifier. *)
Definition other_table : jvalue :=
  JObj [ (str "id", JStr (str "tblOther")); (str "name", JStr (str "Other")) ].
Definition company_table : jvalue :=
  JObj [ (str "id", JStr COMPANY_TABLE_ID); (str "name", JStr (str "Company")) ].
Definition division_table : jvalue :=
  JObj [ (str "id", JStr DIVISION_TABLE_ID); (str "name", JStr (str "Division")) ].
Definition company_copy : jvalue :=
  JObj [ (str "id", JStr COMPANY_TABLE_ID); (str "name", JStr (str "Copy")) ].

(** A 200 response whose [tables] field is [ts]. *)
Definition response_with (ts : list jvalue) : Response :=
  {| status_code := 200;
     text := [];
     json := Ok (JObj [ (str "tables", JArr ts) ]) |}.

(** A failed fetch. *)
Definition unauthorized_response : Response :=
  {| status_code := 401;
     text := str "{}";
     json := Ok (JObj []) |}.

End GetCompanySchema.
Import GetCompanySchema.

(* ================================================================== *)
(** ** Notions used to state further properties *)
(* ================================================================== *)

(** Two display names with the same camel, pascal and kebab forms (or the
    same exception). *)
Definition same_forms (a b : py_str) : Prop :=
  to_camel_case a = to_camel_case b /\
  to_pascal_case a = to_pascal_case b /\
  to_kebab_case a = to_kebab_case b.


(** Two descriptors that agree on what the manifest reads: the display
    name, the route path and the number of relationships. *)
Definition same_manifest_inputs (t t' : table_config) : Prop :=
  name t = name t' /\
  routePath t = routePath t' /\
  length (relationships t) = length (relationships t').




(** Lists for the scan: junk after the company table, and junk before it. *)
Definition junk_after_match : list jvalue :=
  [other_table; company_table; JStr (str "junk"); JNull].
Definition junk_before_match : list jvalue :=
  [other_table; JNull; company_table].

Definition null_tables_response : Response :=
  {| status_code := 200;
     text := str "{}";
     json := Ok (JObj [ (str "tables", JNull) ]) |}.


(* ================================================================== *)
(** ** Characters *)
(* ================================================================== *)

Ltac char_cases :=
  unfold is_lower_alnum, is_alnum, keep, is_space, is_upper, is_lower, is_digit,
    in_range, hyphen in *;
  repeat (progress rewrite ?orb_true_iff, ?andb_true_iff, ?orb_false_iff,
            ?andb_false_iff, ?N.leb_le, ?N.leb_gt, ?N.eqb_eq, ?N.eqb_neq in * );
  lia.

Lemma lower_char_lower_alnum (c : char) :
  is_alnum c = true -> is_lower_alnum (lower_char c) = true.
Proof.
  intros H. unfold lower_char. destruct (is_upper c) eqn:Hu; char_cases.
Qed.

Lemma lower_alnum_not_upper (c : char) :
  is_lower_alnum c = true -> is_upper c = false.
Proof. intros H. char_cases. Qed.

Lemma lower_alnum_not_space (c : char) :
  is_lower_alnum c = true -> is_space c = false.
Proof. intros H. char_cases. Qed.

Lemma lower_alnum_not_hyphen (c : char) :
  is_lower_alnum c = true -> c <> hyphen.
Proof. intros H Hc. subst c. vm_compute in H. discriminate. Qed.

Lemma kept_not_space_alnum (c : char) :
  keep c = true -> is_space c = false -> is_alnum c = true.
Proof.
  unfold keep. intros H Hs. rewrite Hs, orb_false_r in H. exact H.
Qed.

Lemma alnum_not_space (c : char) : is_alnum c = true -> is_space c = false.
Proof. intros H. char_cases. Qed.

Lemma str_eqb_eq (a b : py_str) : str_eqb a b = true <-> a = b.
Proof.
  revert b. induction a as [|x a IH]; intros [|y b]; simpl;
    try (split; congruence).
  rewrite andb_true_iff, N.eqb_eq, IH. split.
  - intros [-> ->]. reflexivity.
  - intros H. injection H as -> ->. split; reflexivity.
Qed.

(* ================================================================== *)
(** ** [split] *)
(* ================================================================== *)

Lemma no_space_rev (w : py_str) : no_space w -> no_space (rev w).
Proof.
  unfold no_space. rewrite !Forall_forall. intros H c Hc.
  apply H. apply in_rev. exact Hc.
Qed.

Lemma rev_cons_not_nil {A} (x : A) (l : list A) : rev (x :: l) <> [].
Proof. simpl. intros H. apply app_eq_nil in H. destruct H; discriminate. Qed.

(** Every word of a split is non-empty and free of whitespace. *)
Lemma split_from_words (s cur : py_str) :
  no_space cur ->
  Forall (fun w => w <> [] /\ no_space w) (split_from cur s).
Proof.
  revert cur. induction s as [|c s IH]; intros cur Hcur; simpl.
  - destruct cur as [|x cur]; constructor; [|constructor].
    split; [apply rev_cons_not_nil | apply no_space_rev; exact Hcur].
  - destruct (is_space c) eqn:Hc.
    + destruct cur as [|x cur].
      * apply IH. constructor.
      * constructor.
        -- split; [apply rev_cons_not_nil | apply no_space_rev; exact Hcur].
        -- apply IH. constructor.
    + apply IH. constructor; assumption.
Qed.

(** The words, put end to end, are the characters that are not whitespace. *)
Lemma split_from_concat (s cur : py_str) :
  concat (split_from cur s) = rev cur ++ filter (fun c => negb (is_space c)) s.
Proof.
  revert cur. induction s as [|c s IH]; intros cur; simpl.
  - destruct cur; simpl; rewrite ?app_nil_r; reflexivity.
  - destruct (is_space c) eqn:Hc; simpl.
    + destruct cur as [|x cur]; simpl.
      * apply (IH []).
      * rewrite (IH []). reflexivity.
    + rewrite IH. simpl. rewrite <- app_assoc. reflexivity.
Qed.

(** No word at all: nothing but whitespace. *)
Lemma split_from_nil (s cur : py_str) :
  split_from cur s = [] <-> cur = [] /\ forallb is_space s = true.
Proof.
  revert cur. induction s as [|c s IH]; intros cur; simpl.
  - destruct cur; split; try discriminate; intuition discriminate.
  - destruct (is_space c) eqn:Hc; simpl.
    + destruct cur as [|x cur].
      * apply IH.
      * split; [discriminate | intros [H _]; discriminate].
    + rewrite IH. split; intros [H1 H2]; discriminate.
Qed.

Lemma split_words (s : py_str) :
  Forall (fun w => w <> [] /\ no_space w) (split s).
Proof. apply split_from_words. constructor. Qed.

Lemma split_concat (s : py_str) :
  concat (split s) = filter (fun c => negb (is_space c)) s.
Proof. apply (split_from_concat s []). Qed.

Lemma split_nil (s : py_str) :
  split s = [] <-> forallb is_space s = true.
Proof.
  unfold split. rewrite split_from_nil. intuition.
Qed.

(** After the strip, the words are made of [a-zA-Z0-9] only. *)
Lemma words_alnum (s w : py_str) :
  In w (split (re_sub_strip s)) ->
  w <> [] /\ Forall (fun c => is_alnum c = true) w.
Proof.
  intros Hw.
  pose proof (split_words (re_sub_strip s)) as Hall.
  rewrite Forall_forall in Hall. destruct (Hall w Hw) as [Hne Hns].
  split; [exact Hne|].
  rewrite Forall_forall. intros c Hc.
  assert (Hin : In c (concat (split (re_sub_strip s)))).
  { apply in_concat. exists w. split; assumption. }
  rewrite split_concat in Hin. apply filter_In in Hin. destruct Hin as [Hin _].
  unfold re_sub_strip in Hin. apply filter_In in Hin. destruct Hin as [_ Hk].
  apply kept_not_space_alnum; [exact Hk|].
  unfold no_space in Hns. rewrite Forall_forall in Hns. apply Hns. exact Hc.
Qed.

(** No word after the strip: no character of [a-zA-Z0-9] in the input. *)
Lemma no_words_iff (s : py_str) :
  split (re_sub_strip s) = [] <-> existsb is_alnum s = false.
Proof.
  rewrite split_nil. unfold re_sub_strip.
  induction s as [|c s IH]; simpl; [intuition|].
  unfold keep at 1. destruct (is_alnum c) eqn:Ha; simpl.
  - rewrite (alnum_not_space _ Ha). simpl. split; discriminate.
  - destruct (is_space c) eqn:Hs; simpl; rewrite ?Hs; exact IH.
Qed.

(* ================================================================== *)
(** ** [join] *)
(* ================================================================== *)

Lemma join_cons2 (sep p q : py_str) (ps : list py_str) :
  join sep (p :: q :: ps) = p ++ sep ++ join sep (q :: ps).
Proof. reflexivity. Qed.

Lemma join_empty_sep (parts : list py_str) : join [] parts = concat parts.
Proof.
  induction parts as [|p [|q ps] IH]; simpl in *.
  - reflexivity.
  - rewrite app_nil_r. reflexivity.
  - rewrite IH. reflexivity.
Qed.

Lemma join_in (sep : py_str) (parts : list py_str) (c : char) :
  In c (join sep parts) -> In c sep \/ exists p, In p parts /\ In c p.
Proof.
  induction parts as [|p [|q ps] IH]; simpl join; intros H.
  - contradiction.
  - right. exists p. split; [left; reflexivity | exact H].
  - apply in_app_or in H. destruct H as [H|H].
    + right. exists p. split; [left; reflexivity | exact H].
    + apply in_app_or in H. destruct H as [H|H]; [left; exact H|].
      destruct (IH H) as [H'|[p' [Hp' Hc]]]; [left; exact H'|].
      right. exists p'. split; [right; exact Hp' | exact Hc].
Qed.

(** Cutting [l1 ++ l2] at an occurrence of [c] that cannot lie in [l1]. *)
Lemma app_cut {A} (c : A) (l1 l2 pre post : list A) :
  ~ In c l1 ->
  l1 ++ l2 = pre ++ c :: post ->
  exists pre', pre = l1 ++ pre' /\ l2 = pre' ++ c :: post.
Proof.
  revert pre. induction l1 as [|x l1 IH]; intros pre Hnot Heq.
  - exists pre. split; [reflexivity | exact Heq].
  - destruct pre as [|y pre]; simpl in Heq.
    + injection Heq as Hx _. exfalso. apply Hnot. left. exact Hx.
    + injection Heq as -> Heq.
      destruct (IH pre) as [pre' [-> ->]].
      * intros Hin. apply Hnot. right. exact Hin.
      * exact Heq.
      * exists pre'. split; reflexivity.
Qed.

Section JoinedWords.

Variable sep : char.

Lemma join_nil_iff (ws : list py_str) :
  Forall (word_ok sep) ws -> (join [sep] ws = [] <-> ws = []).
Proof.
  intros Hws. split; [|intros ->; reflexivity].
  destruct ws as [|w [|q ps]]; [reflexivity| |]; intros H; exfalso;
    inversion Hws as [|? ? [Hne _] _]; subst; simpl in H.
  - apply Hne. exact H.
  - apply app_eq_nil in H. destruct H as [H _]. apply Hne. exact H.
Qed.

Lemma join_no_leading (ws : list py_str) (post : py_str) :
  Forall (word_ok sep) ws -> join [sep] ws <> sep :: post.
Proof.
  intros Hws H. destruct ws as [|w ws]; [discriminate|].
  inversion Hws as [|? ? [Hne Hnot] _]; subst.
  destruct w as [|c w]; [apply Hne; reflexivity|].
  assert (Hc : c = sep).
  { destruct ws; simpl in H; injection H as -> _; reflexivity. }
  apply Hnot. left. exact Hc.
Qed.

Lemma join_no_trailing (ws : list py_str) (pre : py_str) :
  Forall (word_ok sep) ws -> join [sep] ws <> pre ++ [sep].
Proof.
  revert pre. induction ws as [|w [|q ps] IH]; intros pre Hws H.
  - destruct pre; discriminate.
  - inversion Hws as [|? ? [_ Hnot] _]; subst. simpl in H.
    apply Hnot. rewrite H. apply in_or_app. right. left. reflexivity.
  - inversion Hws as [|? ? [_ Hnot] Hrest]; subst.
    rewrite join_cons2 in H.
    destruct (app_cut _ _ _ _ _ Hnot H) as [pre' [-> Hcut]].
    destruct pre' as [|x pre']; simpl in Hcut.
    + injection Hcut as Hnil.
      apply (join_nil_iff _ Hrest) in Hnil. discriminate.
    + injection Hcut as _ Hcut. exact (IH pre' Hrest Hcut).
Qed.

Lemma join_no_double (ws : list py_str) (pre post : py_str) :
  Forall (word_ok sep) ws -> join [sep] ws <> pre ++ sep :: sep :: post.
Proof.
  revert pre. induction ws as [|w [|q ps] IH]; intros pre Hws H.
  - destruct pre; discriminate.
  - inversion Hws as [|? ? [_ Hnot] _]; subst. simpl in H.
    apply Hnot. rewrite H. apply in_or_app. right. left. reflexivity.
  - inversion Hws as [|? ? [_ Hnot] Hrest]; subst.
    rewrite join_cons2 in H.
    destruct (app_cut _ _ _ _ _ Hnot H) as [pre' [-> Hcut]].
    destruct pre' as [|x pre']; simpl in Hcut.
    + injection Hcut as Hlead. exact (join_no_leading _ _ Hrest Hlead).
    + injection Hcut as _ Hcut. exact (IH pre' Hrest Hcut).
Qed.

End JoinedWords.

(* ================================================================== *)
(** ** The case-conversion helpers *)
(* ================================================================== *)

(** The lowered words of a display name: non-empty, made of [a-z0-9]. *)
Lemma lowered_words (s : py_str) :
  Forall (fun w => w <> [] /\ forallb is_lower_alnum w = true)
         (map lower (split (re_sub_strip s))).
Proof.
  rewrite Forall_forall. intros w Hw.
  apply in_map_iff in Hw. destruct Hw as [w' [<- Hw']].
  destruct (words_alnum _ _ Hw') as [Hne Hal]. split.
  - destruct w'; [contradiction Hne; reflexivity | discriminate].
  - apply forallb_forall. intros c Hc.
    unfold lower in Hc. apply in_map_iff in Hc. destruct Hc as [c' [<- Hc']].
    apply lower_char_lower_alnum.
    rewrite Forall_forall in Hal. apply Hal. exact Hc'.
Qed.

Lemma lowered_words_ok (ws : list py_str) :
  Forall (fun w => w <> [] /\ forallb is_lower_alnum w = true) ws ->
  Forall (word_ok hyphen) ws.
Proof.
  apply Forall_impl. intros w [Hne Hal]. split; [exact Hne|].
  intros Hin. rewrite forallb_forall in Hal.
  exact (lower_alnum_not_hyphen _ (Hal _ Hin) eq_refl).
Qed.

(** No word: [words[0]] raises, in [to_camel_case] and so in
    [to_pascal_case]. *)
Lemma to_camel_case_no_words (s : py_str) :
  split (re_sub_strip s) = [] ->
  to_camel_case s = Raise IndexError /\ to_pascal_case s = Raise IndexError.
Proof.
  intros H. unfold to_pascal_case, to_camel_case. rewrite H. split; reflexivity.
Qed.

(** [to_camel_case] returns no empty string. *)
Lemma to_camel_case_not_empty (s camel : py_str) :
  to_camel_case s = Ok camel -> camel <> [].
Proof.
  unfold to_camel_case.
  destruct (split (re_sub_strip s)) as [|w ws] eqn:Hs; simpl; [discriminate|].
  intros H. injection H as <-.
  assert (Hw : In w (split (re_sub_strip s))) by (rewrite Hs; left; reflexivity).
  destruct (words_alnum _ _ Hw) as [Hne _].
  destruct w; [contradiction Hne; reflexivity | discriminate].
Qed.

(** Where [to_camel_case] returns, [to_pascal_case] is its result with the
    first character upper-cased. *)
Lemma to_pascal_case_of_camel (s camel : py_str) :
  to_camel_case s = Ok camel ->
  to_pascal_case s = Ok (upper_first camel).
Proof.
  intros H. unfold to_pascal_case. rewrite H. simpl.
  destruct camel; reflexivity.
Qed.

(** C1 (code defect): on an input that yields no token, [to_camel_case]
    does not return the empty string: [words[0]] raises [IndexError], and
    [to_pascal_case], which calls it first, raises with it.  Evaluated at
    the empty string, a whitespace-only string and a string of disallowed
    punctuation. *)
Theorem to_camel_case_zero_tokens_raises :
  split (re_sub_strip (str "")) = [] /\
  split (re_sub_strip (str "   ")) = [] /\
  split (re_sub_strip (str "&/-!")) = [] /\
  to_camel_case (str "") = Raise IndexError /\
  to_pascal_case (str "") = Raise IndexError /\
  to_camel_case (str "   ") = Raise IndexError /\
  to_pascal_case (str "   ") = Raise IndexError /\
  to_camel_case (str "&/-!") = Raise IndexError /\
  to_pascal_case (str "&/-!") = Raise IndexError.
Proof. repeat split; reflexivity. Qed.

(** C2 as stated fails: the rest of a later token is not kept as it is in
    the input.  ["a BC"] has the tokens ["a"] and ["BC"], and the result is
    ["aBc"], not ["aBC"]. *)
Lemma to_camel_case_rest_not_preserved :
  split (re_sub_strip (str "a BC")) = [str "a"; str "BC"] /\
  to_camel_case (str "a BC") = Ok (str "aBc") /\
  to_camel_case (str "a BC")
    <> Ok (lower (str "a") ++ concat (map upper_first [str "BC"])).
Proof. split; [reflexivity | split; [reflexivity | discriminate]]. Qed.

(** C2 (amended): when the stripped input splits into two or more tokens,
    [to_camel_case] returns the first token lower-cased, followed without
    separator by one piece per later token, in order; the piece of a token
    is its first character upper-cased and its other characters
    lower-cased. *)
Theorem to_camel_case_tokens (s w0 w1 : py_str) (ws : list py_str) :
  split (re_sub_strip s) = w0 :: w1 :: ws ->
  exists pieces,
    to_camel_case s = Ok (lower w0 ++ concat pieces) /\
    Forall2 (fun w piece =>
               exists c rest,
                 w = c :: rest /\ piece = upper_char c :: map lower_char rest)
            (w1 :: ws) pieces.
Proof.
  intros Hs. exists (map capitalize (w1 :: ws)). split.
  - unfold to_camel_case. rewrite Hs.
    cbn [bind_result index0 slice_from_1 tl].
    rewrite join_empty_sep. reflexivity.
  - assert (Hne : Forall (fun w => w <> []) (w1 :: ws)).
    { rewrite Forall_forall. intros w Hw.
      apply (words_alnum s). rewrite Hs. right. exact Hw. }
    clear Hs. induction Hne as [|w l Hw _ IH]; simpl; [constructor|].
    constructor; [|exact IH].
    destruct w as [|c rest]; [contradiction Hw; reflexivity|].
    exists c, rest. split; reflexivity.
Qed.

Lemma to_camel_case_tokens_witness :
  exists pieces,
    to_camel_case (str "Standard ECM catalog")
      = Ok (lower (str "Standard") ++ concat pieces) /\
    Forall2 (fun w piece =>
               exists c rest,
                 w = c :: rest /\ piece = upper_char c :: map lower_char rest)
            [str "ECM"; str "catalog"] pieces.
Proof.
  apply (to_camel_case_tokens (str "Standard ECM catalog")). reflexivity.
Defined.

(** C3 as stated fails: the slash of ["EF/Detailed G"] is deleted, not
    turned into a separator, so ["EF"] and ["Detailed"] form one token. *)
Lemma to_kebab_case_ef_detailed_g_not_hyphenated :
  to_kebab_case (str "EF/Detailed G") <> str "ef-detailed-g".
Proof. discriminate. Qed.

(** C3 (amended): [to_kebab_case] applied to ["EF/Detailed G"] returns
    ["efdetailed-g"]. *)
Theorem to_kebab_case_ef_detailed_g :
  to_kebab_case (str "EF/Detailed G") = str "efdetailed-g".
Proof. reflexivity. Qed.

(** C5 (code defect): on the empty input string [to_pascal_case] does not
    return the empty string: the call of [to_camel_case] raises
    [IndexError] before the guard on an empty [camel] is reached. *)
Theorem to_pascal_case_empty_raises :
  to_camel_case [] = Raise IndexError /\
  to_pascal_case [] = Raise IndexError /\
  to_pascal_case [] <> Ok [].
Proof. split; [reflexivity | split; [reflexivity | discriminate]]. Qed.

(** C6: [to_camel_case] applied to ["Standard ECM catalog"] returns
    ["standardEcmCatalog"]. *)
Theorem to_camel_case_standard_ecm_catalog :
  to_camel_case (str "Standard ECM catalog") = Ok (str "standardEcmCatalog").
Proof. reflexivity. Qed.

(** C10: [to_kebab_case] is total, and its result is a hyphen-joined list
    of non-empty tokens over [a-z0-9]: no upper-case letter, no
    whitespace, no hyphen at either end, no two hyphens in a row; it is
    empty exactly when the input has no character of [a-zA-Z0-9]. *)
Theorem to_kebab_case_shape (s : py_str) :
  (exists toks,
      to_kebab_case s = join [hyphen] toks /\
      Forall (fun t => t <> [] /\ forallb is_lower_alnum t = true) toks) /\
  (forall c, In c (to_kebab_case s) -> is_upper c = false /\ is_space c = false) /\
  (forall post, to_kebab_case s <> hyphen :: post) /\
  (forall pre, to_kebab_case s <> pre ++ [hyphen]) /\
  (forall pre post, to_kebab_case s <> pre ++ hyphen :: hyphen :: post) /\
  (to_kebab_case s = [] <-> existsb is_alnum s = false).
Proof.
  pose proof (lowered_words s) as Hlow.
  pose proof (lowered_words_ok _ Hlow) as Hok.
  unfold to_kebab_case.
  split; [|split; [|split; [|split; [|split]]]].
  - exists (map lower (split (re_sub_strip s))). split; [reflexivity | exact Hlow].
  - intros c H.
    destruct (join_in _ _ _ H) as [[<-|[]]|[w [Hw Hc]]];
      [split; reflexivity|].
    rewrite Forall_forall in Hlow. destruct (Hlow w Hw) as [_ Hal].
    rewrite forallb_forall in Hal. split.
    + apply lower_alnum_not_upper, Hal, Hc.
    + apply lower_alnum_not_space, Hal, Hc.
  - intros post. apply join_no_leading. exact Hok.
  - intros pre. apply join_no_trailing. exact Hok.
  - intros pre post. apply join_no_double. exact Hok.
  - split; intros H.
    + apply (join_nil_iff _ _ Hok) in H.
      apply map_eq_nil in H. apply no_words_iff. exact H.
    + apply no_words_iff in H. rewrite H. reflexivity.
Qed.

(* ================================================================== *)
(** ** The manifest *)
(* ================================================================== *)

(** One turn of the loop prints the block of its descriptor. *)
Lemma report_table_run (t : table_config) (camel pascal : py_str) (w : world) :
  to_camel_case (name t) = Ok camel ->
  to_pascal_case (name t) = Ok pascal ->
  exists rel_lines,
    (relationships t = [] -> rel_lines = []) /\
    (relationships t <> [] ->
       rel_lines = [relationships_line (length (relationships t))]) /\
    report_table t w
      = (Ok tt, {| stdout := stdout w ++ artifact_lines t camel pascal rel_lines;
                   schema_file := schema_file w |}).
Proof.
  intros Hc Hp. unfold report_table, bind, lift. rewrite Hc, Hp.
  destruct (relationships t) as [|r rs] eqn:Hr.
  - exists []. split; [reflexivity|]. split; [congruence|].
    unfold print, ret, artifact_lines. cbn [stdout schema_file].
    repeat rewrite <- app_assoc. reflexivity.
  - exists [relationships_line (length (r :: rs))].
    split; [discriminate|]. split; [reflexivity|].
    unfold print, ret, artifact_lines, relationships_line.
    cbn [stdout schema_file].
    repeat rewrite <- app_assoc. reflexivity.
Qed.

(** A display name with a token has its camel and pascal forms. *)
Lemma case_forms_exist (s : py_str) :
  split (re_sub_strip s) <> [] ->
  exists camel pascal, to_camel_case s = Ok camel /\ to_pascal_case s = Ok pascal.
Proof.
  intros H. unfold to_pascal_case, to_camel_case.
  destruct (split (re_sub_strip s)) as [|w ws]; [contradiction H; reflexivity|].
  simpl. eexists. eexists. split; reflexivity.
Qed.

(** The loop prints the blocks of the descriptors, in the list's order. *)
Lemma for_each_report_table (tables : list table_config) (w : world) :
  Forall (fun t => split (re_sub_strip (name t)) <> []) tables ->
  exists blocks,
    Forall2 manifest_block tables blocks /\
    for_each tables report_table w
      = (Ok tt, {| stdout := stdout w ++ concat blocks;
                   schema_file := schema_file w |}).
Proof.
  intros Hall. revert w. induction Hall as [|t tables Ht _ IH]; intros w.
  - exists []. split; [constructor|]. simpl. unfold ret.
    rewrite app_nil_r. destruct w; reflexivity.
  - destruct (case_forms_exist _ Ht) as [camel [pascal [Hc Hp]]].
    destruct (report_table_run t camel pascal w Hc Hp) as [rl [H1 [H2 Hrun]]].
    destruct (IH {| stdout := stdout w ++ artifact_lines t camel pascal rl;
                    schema_file := schema_file w |}) as [blocks [Hb Hloop]].
    exists (artifact_lines t camel pascal rl :: blocks). split.
    + constructor; [|exact Hb]. exists camel, pascal, rl. auto.
    + cbn [for_each]. unfold bind at 1. rewrite Hrun, Hloop.
      cbn [stdout schema_file concat]. rewrite <- app_assoc. reflexivity.
Qed.

Lemma report_run (tables : list table_config) (w : world) :
  Forall (fun t => split (re_sub_strip (name t)) <> []) tables ->
  exists blocks,
    Forall2 manifest_block tables blocks /\
    report tables w
      = (Ok tt, {| stdout := stdout w ++ header_lines (length tables) ++ concat blocks;
                   schema_file := schema_file w |}).
Proof.
  intros Hall.
  destruct (for_each_report_table tables
              {| stdout := stdout w ++ header_lines (length tables);
                 schema_file := schema_file w |} Hall) as [blocks [Hb Hloop]].
  exists blocks. split; [exact Hb|].
  unfold report, print_header, bind, print. cbn [stdout schema_file].
  unfold header_lines in *. cbn [stdout schema_file] in Hloop.
  repeat rewrite <- app_assoc. cbn [app].
  repeat rewrite <- app_assoc in Hloop. cbn [app] in Hloop.
  exact Hloop.
Qed.

(** The block of ['EF/Detailed G'], which has three relationships, and the
    block of ['Scope'], which has none. *)
Example manifest_block_ef_detailed_g :
  manifest_block (nth 1 TABLES (TableConfig [] [] [] [] [] [] [] []))
    [ check_mark :: str " EF/Detailed G:";
      str "   - Types: EfdetailedG.ts";
      str "   - Service: EfdetailedGAirtableService.ts";
      str "   - Controller: EfdetailedGController.ts";
      str "   - Routes: efdetailedGRoutes.ts";
      str "   - API Client: efdetailedG.ts";
      str "   - Config: efdetailedGConfig.tsx";
      str "   - Page: ef-detailed-g/page.tsx";
      str "   - Layout: ef-detailed-g/layout.tsx";
      str "   - Relationships: 3";
      [] ].
Proof.
  exists (str "efdetailedG"), (str "EfdetailedG"), [str "   - Relationships: 3"].
  repeat (split; [first [reflexivity | discriminate]|]). reflexivity.
Qed.

Example manifest_block_scope :
  manifest_block (nth 2 TABLES (TableConfig [] [] [] [] [] [] [] []))
    [ check_mark :: str " Scope:";
      str "   - Types: Scope.ts";
      str "   - Service: ScopeAirtableService.ts";
      str "   - Controller: ScopeController.ts";
      str "   - Routes: scopeRoutes.ts";
      str "   - API Client: scope.ts";
      str "   - Config: scopeConfig.tsx";
      str "   - Page: scope/page.tsx";
      str "   - Layout: scope/layout.tsx";
      [] ].
Proof.
  exists (str "scope"), (str "Scope"), [].
  repeat (split; [first [reflexivity | intros H; contradiction H; reflexivity]|]).
  reflexivity.
Qed.

(** C7: the script prints, after its three header lines, one block per
    descriptor of [TABLES] in the order of the list; a block is the
    descriptor's heading followed by the lines for type, service,
    controller, routes, client API, config, page and layout in that order,
    the last two built on [routePath] as it stands in the descriptor, then
    a relationships line with the length of the relationships list exactly
    when that list is not empty, then an empty line.  The route path is
    not the kebab form of the display name for every descriptor. *)
Theorem manifest_of_tables (w : world) :
  (exists blocks,
      Forall2 manifest_block TABLES blocks /\
      GenerateAllTables.main w
        = (Ok tt, {| stdout := stdout w ++ header_lines (length TABLES) ++ concat blocks;
                     schema_file := schema_file w |})) /\
  (exists t, In t TABLES /\ routePath t <> to_kebab_case (name t)).
Proof.
  split.
  - apply report_run. unfold TABLES.
    repeat (constructor; [vm_compute; discriminate|]). constructor.
  - exists (nth 1 TABLES (TableConfig [] [] [] [] [] [] [] [])). split.
    + right. left. reflexivity.
    + vm_compute. discriminate.
Qed.

(* ================================================================== *)
(** ** The schema extractor *)
(* ================================================================== *)

(** On a dict, the test of the generator expression is [has_id]. *)
Lemma get_id_has_id (wanted : py_str) (items : list (py_str * jvalue)) :
  exists v,
    py_get (JObj items) (str "id") JNull = Ok v /\
    py_eq_str v wanted = has_id wanted (JObj items).
Proof.
  unfold py_get, has_id.
  destruct (lookup (str "id") items) as [v|].
  - exists v. split; [reflexivity|]. destruct v; reflexivity.
  - exists JNull. split; reflexivity.
Qed.

(** On schema objects, [next] is the first element with the identifier. *)
Lemma next_with_id_find (wanted : py_str) (ts : list jvalue) :
  Forall (fun t => is_object t = true) ts ->
  next_with_id wanted ts = Ok (find (has_id wanted) ts).
Proof.
  induction 1 as [|t ts Ht _ IH]; [reflexivity|].
  destruct t as [| | | | | |items]; try discriminate.
  destruct (get_id_has_id wanted items) as [v [Hget Heq]].
  cbn [next_with_id find]. rewrite Hget, Heq.
  destruct (has_id wanted (JObj items)); [reflexivity | exact IH].
Qed.

Lemma find_first {A} (f : A -> bool) (pre : list A) (t : A) (post : list A) :
  f t = true ->
  Forall (fun u => f u = false) pre ->
  find f (pre ++ t :: post) = Some t.
Proof.
  intros Ht Hpre. induction Hpre as [|u pre Hu _ IH]; simpl.
  - rewrite Ht. reflexivity.
  - rewrite Hu. exact IH.
Qed.

Lemma find_absent {A} (f : A -> bool) (l : list A) :
  find f l = None <-> Forall (fun u => f u = false) l.
Proof.
  induction l as [|u l IH]; simpl.
  - split; [constructor | reflexivity].
  - destruct (f u) eqn:Hu.
    + split; [discriminate|]. intros H. inversion H; congruence.
    + rewrite IH. split; [constructor; assumption|].
      intros H. inversion H; assumption.
Qed.

Lemma find_hd_filter {A} (f : A -> bool) (l : list A) :
  find f l = hd_error (filter f l).
Proof.
  induction l as [|u l IH]; simpl; [reflexivity|].
  destruct (f u); [reflexivity | exact IH].
Qed.

Lemma filter_permutation {A} (f : A -> bool) (l l' : list A) :
  Permutation l l' -> Permutation (filter f l) (filter f l').
Proof.
  induction 1 as [|x l l' _ IH|x y l|l l' l'' _ IH1 _ IH2]; simpl.
  - constructor.
  - destruct (f x); [constructor|]; exact IH.
  - destruct (f x), (f y); try reflexivity. constructor.
  - exact (perm_trans IH1 IH2).
Qed.

(** With at most one match, the element found is the same in any order. *)
Lemma find_permutation_unique {A} (f : A -> bool) (l l' : list A) :
  Permutation l l' ->
  length (filter f l) <= 1 ->
  find f l' = find f l.
Proof.
  intros Hp Hlen. rewrite !find_hd_filter.
  pose proof (filter_permutation f _ _ Hp) as Hf.
  destruct (filter f l) as [|x [|y rest]] eqn:Hl.
  - apply Permutation_nil in Hf. rewrite Hf. reflexivity.
  - apply Permutation_length_1_inv in Hf. rewrite Hf. reflexivity.
  - simpl in Hlen. lia.
Qed.

(** Whether an element is found is the same in any order. *)
Lemma find_permutation_found {A} (f : A -> bool) (l l' : list A) :
  Permutation l l' ->
  (find f l = None <-> find f l' = None).
Proof.
  intros Hp. rewrite !find_absent. split; intros H.
  - exact (Permutation_Forall Hp H).
  - exact (Permutation_Forall (Permutation_sym Hp) H).
Qed.

Lemma select_find (wanted : py_str) (ts : list jvalue) :
  Forall (fun t => is_object t = true) ts ->
  select wanted (JArr ts) = Ok (find (has_id wanted) ts).
Proof. intros H. unfold select. simpl. apply next_with_id_find. exact H. Qed.

Lemma get_all_tables_ok (response : Response) (w : world)
    (items : list (py_str * jvalue)) :
  status_code response = 200%Z ->
  json response = Ok (JObj items) ->
  get_all_tables response w = (Ok (tables_field items), w).
Proof.
  intros Hs Hj. unfold get_all_tables. rewrite Hs, Z.eqb_refl.
  unfold bind, lift. rewrite Hj. unfold py_get, tables_field.
  destruct (lookup (str "tables") items); reflexivity.
Qed.

Lemma get_all_tables_failed (response : Response) (w : world) :
  status_code response <> 200%Z ->
  get_all_tables response w
    = (Ok (JArr []), {| stdout := stdout w ++ [error_line response];
                        schema_file := schema_file w |}).
Proof.
  intros Hs. unfold get_all_tables.
  apply Z.eqb_neq in Hs. rewrite Hs. reflexivity.
Qed.

(** Printing and pure steps leave the schema file alone. *)
Lemma keeps_file_ret {A} (a : A) : keeps_file (ret a).
Proof. intros w. reflexivity. Qed.

Lemma keeps_file_lift {A} (r : result A) : keeps_file (lift r).
Proof. intros w. reflexivity. Qed.

Lemma keeps_file_print (line : py_str) : keeps_file (print line).
Proof. intros w. reflexivity. Qed.

Lemma keeps_file_bind {A B} (m : Py A) (k : A -> Py B) :
  keeps_file m -> (forall a, keeps_file (k a)) -> keeps_file (bind m k).
Proof.
  intros Hm Hk w. unfold bind. specialize (Hm w).
  destruct (m w) as [[a|e] w']; simpl in *.
  - rewrite Hk. exact Hm.
  - exact Hm.
Qed.

Ltac keeps_file_steps :=
  repeat first
    [ apply keeps_file_ret
    | apply keeps_file_lift
    | apply keeps_file_print
    | apply keeps_file_bind; [|intros ?] ].

Lemma summary_keeps_file (format : jvalue -> py_str) (label : string)
    (with_primary : bool) (selection : option jvalue) :
  keeps_file (summary format label with_primary selection).
Proof.
  unfold summary, shown, field_count.
  destruct (selected selection); [|apply keeps_file_ret].
  destruct with_primary; keeps_file_steps.
Qed.

(** With a 200 response whose [tables] field is a list of schema objects,
    the file holds, under [company] and [division], the first object with
    each identifier, or [null]; the summary printed afterwards, even if it
    raises, does not touch the file. *)
Lemma main_writes_selection (format : jvalue -> py_str) (response : Response)
    (w : world) (items : list (py_str * jvalue)) (ts : list jvalue) :
  status_code response = 200%Z ->
  json response = Ok (JObj items) ->
  tables_field items = JArr ts ->
  Forall (fun t => is_object t = true) ts ->
  schema_file (snd (GetCompanySchema.main format response w))
    = Some (JObj [ (str "company", of_option (find (has_id COMPANY_TABLE_ID) ts));
                   (str "division", of_option (find (has_id DIVISION_TABLE_ID) ts)) ]).
Proof.
  intros Hs Hj Ht Hobj. unfold GetCompanySchema.main.
  unfold bind at 1. rewrite (get_all_tables_ok _ _ _ Hs Hj), Ht.
  unfold bind at 1, lift at 1. rewrite (select_find _ _ Hobj).
  unfold bind at 1, lift at 1. rewrite (select_find _ _ Hobj).
  unfold bind at 1, json_dump at 1.
  match goal with
  | |- schema_file (snd (?rest ?w1)) = _ =>
      assert (Hk : keeps_file rest); [|rewrite Hk; reflexivity]
  end.
  keeps_file_steps; apply summary_keeps_file.
Qed.

(** A fetch that gave a list without a match for either identifier:
    the file gets the two nulls, and only the closing line is printed. *)
Lemma main_no_selection (format : jvalue -> py_str) (response : Response)
    (w w1 : world) (ts : list jvalue) :
  get_all_tables response w = (Ok (JArr ts), w1) ->
  select COMPANY_TABLE_ID (JArr ts) = Ok None ->
  select DIVISION_TABLE_ID (JArr ts) = Ok None ->
  GetCompanySchema.main format response w
    = (Ok tt, {| stdout := stdout w1 ++ [success_line];
                 schema_file := Some null_output |}).
Proof.
  intros Hg Hc Hd. unfold GetCompanySchema.main.
  unfold bind at 1. rewrite Hg.
  unfold bind at 1, lift at 1. rewrite Hc.
  unfold bind at 1, lift at 1. rewrite Hd.
  reflexivity.
Qed.

(** C4 as stated fails: status 201 is in the 2xx range and the body has a
    [tables] field with one table, yet [get_all_tables] prints the error
    line and returns the empty list. *)
Lemma get_all_tables_201_not_tables :
  (200 <= status_code created_response < 300)%Z /\
  json created_response
    = Ok (JObj [ (str "tables", JArr [ JObj [ (str "id", JStr COMPANY_TABLE_ID) ] ]) ]) /\
  get_all_tables created_response fresh
    = (Ok (JArr []), {| stdout := [error_line created_response];
                        schema_file := None |}) /\
  fst (get_all_tables created_response fresh)
    <> Ok (JArr [ JObj [ (str "id", JStr COMPANY_TABLE_ID) ] ]).
Proof.
  split; [simpl; lia|]. split; [reflexivity|]. split; [reflexivity|].
  discriminate.
Qed.

(** C4 (amended): when the status code is exactly 200 and the body decodes
    to an object, [get_all_tables] returns the [tables] field of the body,
    or the empty list if the field is absent, and prints nothing; for any
    other status code, other 2xx codes included, it prints the status code
    and the response body and returns the empty list without raising. *)
Theorem get_all_tables_by_status (response : Response) (w : world) :
  (status_code response = 200%Z ->
   forall items, json response = Ok (JObj items) ->
     get_all_tables response w = (Ok (tables_field items), w)) /\
  (status_code response <> 200%Z ->
   get_all_tables response w
     = (Ok (JArr []),
        {| stdout := stdout w
             ++ [str "Error fetching tables: " ++ str_of_Z (status_code response)
                   ++ str " - " ++ text response];
           schema_file := schema_file w |})).
Proof.
  split.
  - intros Hs items Hj. apply get_all_tables_ok; assumption.
  - apply get_all_tables_failed.
Qed.

Lemma get_all_tables_by_status_witness :
  get_all_tables ok_response fresh
    = (Ok (JArr [ JObj [ (str "id", JStr COMPANY_TABLE_ID) ] ]), fresh) /\
  get_all_tables unauthorized_response fresh
    = (Ok (JArr []),
       {| stdout := [str "Error fetching tables: 401 - {}"]; schema_file := None |}).
Proof.
  split.
  - exact (proj1 (get_all_tables_by_status ok_response fresh) eq_refl
             [ (str "tables", JArr [ JObj [ (str "id", JStr COMPANY_TABLE_ID) ] ]) ]
             eq_refl).
  - apply (proj2 (get_all_tables_by_status unauthorized_response fresh)).
    discriminate.
Defined.

(** C8: on a list of schema objects, the selection for a wanted identifier
    (the script asks for [COMPANY_TABLE_ID] and [DIVISION_TABLE_ID]) is the
    first object in list order whose ['id'] is that identifier, whatever
    follows it, and [None] when no object has it; in any reordering of the
    list the identifier is found or not found alike, and when at most one
    object carries it the same object is selected. *)
Theorem select_first_match (ts : list jvalue) (wanted : py_str) :
  Forall (fun t => is_object t = true) ts ->
  (forall pre t post,
      ts = pre ++ t :: post ->
      has_id wanted t = true ->
      Forall (fun u => has_id wanted u = false) pre ->
      select wanted (JArr ts) = Ok (Some t)) /\
  (Forall (fun u => has_id wanted u = false) ts ->
   select wanted (JArr ts) = Ok None) /\
  (forall ts', Permutation ts ts' ->
     exists r r',
       select wanted (JArr ts) = Ok r /\
       select wanted (JArr ts') = Ok r' /\
       (r = None <-> r' = None) /\
       (length (filter (has_id wanted) ts) <= 1 -> r' = r)).
Proof.
  intros Hobj. split; [|split].
  - intros pre t post -> Ht Hpre.
    rewrite (select_find _ _ Hobj). f_equal. apply find_first; assumption.
  - intros Hnone. rewrite (select_find _ _ Hobj). f_equal.
    apply find_absent. exact Hnone.
  - intros ts' Hp.
    exists (find (has_id wanted) ts), (find (has_id wanted) ts').
    split; [apply select_find; exact Hobj|].
    split; [apply select_find; exact (Permutation_Forall Hp Hobj)|].
    split; [apply find_permutation_found; exact Hp|].
    intros Hlen. apply find_permutation_unique; assumption.
Qed.

Lemma select_first_match_witness :
  select COMPANY_TABLE_ID
    (JArr [other_table; company_table; division_table; company_copy])
  = Ok (Some company_table).
Proof.
  refine (proj1 (select_first_match
                   [other_table; company_table; division_table; company_copy]
                   COMPANY_TABLE_ID _)
                [other_table] company_table [division_table; company_copy]
                _ _ _).
  - repeat constructor.
  - reflexivity.
  - reflexivity.
  - repeat constructor.
Defined.

(** C9: when the fetch failed (any status other than 200), and when it
    succeeded with a list of schema objects none of which has the company
    or the division identifier, the script writes the same file,
    [{ "company": null, "division": null }]; the failed run prints the
    error line before the closing line, the other run prints the closing
    line only. *)
Theorem main_no_match (format : jvalue -> py_str) (response : Response) (w : world) :
  (status_code response <> 200%Z ->
   GetCompanySchema.main format response w
     = (Ok tt, {| stdout := stdout w ++ [error_line response; success_line];
                  schema_file := Some null_output |})) /\
  (forall items ts,
     status_code response = 200%Z ->
     json response = Ok (JObj items) ->
     tables_field items = JArr ts ->
     Forall (fun t => is_object t = true) ts ->
     Forall (fun t => has_id COMPANY_TABLE_ID t = false
                      /\ has_id DIVISION_TABLE_ID t = false) ts ->
     GetCompanySchema.main format response w
       = (Ok tt, {| stdout := stdout w ++ [success_line];
                    schema_file := Some null_output |})).
Proof.
  split.
  - intros Hs.
    rewrite (main_no_selection format response w _ []
               (get_all_tables_failed response w Hs) eq_refl eq_refl).
    cbn [stdout]. rewrite <- app_assoc. reflexivity.
  - intros items ts Hs Hj Ht Hobj Hnone.
    apply (main_no_selection format response w w ts).
    + rewrite <- Ht. apply get_all_tables_ok; assumption.
    + rewrite (select_find _ _ Hobj). f_equal. apply find_absent.
      revert Hnone. apply Forall_impl. intros t [H _]. exact H.
    + rewrite (select_find _ _ Hobj). f_equal. apply find_absent.
      revert Hnone. apply Forall_impl. intros t [_ H]. exact H.
Qed.

Lemma main_no_match_witness :
  GetCompanySchema.main (fun _ => []) unauthorized_response fresh
    = (Ok tt, {| stdout := [str "Error fetching tables: 401 - {}"; success_line];
                 schema_file := Some null_output |}) /\
  GetCompanySchema.main (fun _ => []) (response_with [other_table]) fresh
    = (Ok tt, {| stdout := [success_line];
                 schema_file := Some null_output |}).
Proof.
  split.
  - apply (proj1 (main_no_match (fun _ => []) unauthorized_response fresh)).
    discriminate.
  - apply (proj2 (main_no_match (fun _ => []) (response_with [other_table]) fresh)
             [ (str "tables", JArr [other_table]) ] [other_table]).
    + reflexivity.
    + reflexivity.
    + reflexivity.
    + repeat constructor.
    + repeat constructor.
Defined.

(* ================================================================== *)
(** ** More on the case-conversion helpers *)
(* ================================================================== *)

Lemma lower_char_idem (c : char) : lower_char (lower_char c) = lower_char c.
Proof.
  unfold lower_char. destruct (is_upper c) eqn:Hu.
  - destruct (is_upper (c + 32)%N) eqn:Hu'; [char_cases | reflexivity].
  - rewrite Hu. reflexivity.
Qed.

Lemma lower_upper_char (c : char) : lower_char (upper_char c) = lower_char c.
Proof.
  unfold upper_char. destruct (is_lower c) eqn:Hl; [|reflexivity].
  unfold lower_char.
  destruct (is_upper (c - 32)%N) eqn:Hu', (is_upper c) eqn:Hu; char_cases.
Qed.

Lemma upper_lower_char (c : char) : upper_char (lower_char c) = upper_char c.
Proof.
  unfold lower_char. destruct (is_upper c) eqn:Hu; [|reflexivity].
  unfold upper_char.
  destruct (is_lower (c + 32)%N) eqn:Hl', (is_lower c) eqn:Hl; char_cases.
Qed.

Lemma upper_char_alnum (c : char) :
  is_alnum c = true -> is_alnum (upper_char c) = true.
Proof.
  intros H. unfold upper_char. destruct (is_lower c) eqn:Hl; [|exact H].
  char_cases.
Qed.

Lemma upper_char_not_lower (c : char) : is_lower (upper_char c) = false.
Proof.
  unfold upper_char. destruct (is_lower c) eqn:Hl; [|exact Hl]. char_cases.
Qed.

Lemma lower_alnum_alnum (c : char) :
  is_lower_alnum c = true -> is_alnum c = true.
Proof. intros H. char_cases. Qed.

Lemma lower_idem (w : py_str) : lower (lower w) = lower w.
Proof.
  unfold lower. rewrite map_map. apply map_ext. exact lower_char_idem.
Qed.

Lemma lower_app (a b : py_str) : lower (a ++ b) = lower a ++ lower b.
Proof. apply map_app. Qed.

Lemma lower_concat (l : list py_str) : lower (concat l) = concat (map lower l).
Proof. apply concat_map. Qed.

Lemma lower_capitalize (w : py_str) : lower (capitalize w) = lower w.
Proof.
  destruct w as [|c rest]; [reflexivity|]. simpl.
  rewrite lower_upper_char. fold (lower rest). fold (lower (lower rest)).
  rewrite lower_idem. reflexivity.
Qed.

(** The characters that survive the strip and are not whitespace are the
    characters of [a-zA-Z0-9]. *)
Lemma strip_not_space (s : py_str) :
  filter (fun c => negb (is_space c)) (re_sub_strip s) = filter is_alnum s.
Proof.
  unfold re_sub_strip. induction s as [|c s IH]; [reflexivity|].
  simpl. unfold keep at 1. destruct (is_alnum c) eqn:Ha; simpl.
  - rewrite (alnum_not_space _ Ha). simpl. rewrite IH. reflexivity.
  - destruct (is_space c) eqn:Hs; simpl; rewrite ?Hs; simpl; exact IH.
Qed.

(** The words of a display name, end to end, are its characters of
    [a-zA-Z0-9] in order. *)
Lemma words_concat (s : py_str) :
  concat (split (re_sub_strip s)) = filter is_alnum s.
Proof. rewrite split_concat. apply strip_not_space. Qed.

Lemma capitalize_alnum (w : py_str) :
  Forall (fun c => is_alnum c = true) w ->
  Forall (fun c => is_alnum c = true) (capitalize w).
Proof.
  intros H. destruct H as [|c rest Hc Hrest]; simpl; constructor.
  - apply upper_char_alnum. exact Hc.
  - unfold lower. rewrite Forall_map. revert Hrest. apply Forall_impl.
    intros a Ha. apply lower_alnum_alnum, lower_char_lower_alnum. exact Ha.
Qed.

Lemma lower_word_alnum (w : py_str) :
  Forall (fun c => is_alnum c = true) w ->
  Forall (fun c => is_lower_alnum c = true) (lower w).
Proof.
  intros H. unfold lower. rewrite Forall_map. revert H. apply Forall_impl.
  intros a Ha. apply lower_char_lower_alnum. exact Ha.
Qed.

(** What [to_camel_case] and [to_pascal_case] compute from the words. *)
Lemma to_camel_case_words (s w0 : py_str) (ws : list py_str) :
  split (re_sub_strip s) = w0 :: ws ->
  to_camel_case s = Ok (lower w0 ++ concat (map capitalize ws)).
Proof.
  intros Hs. unfold to_camel_case. rewrite Hs.
  cbn [bind_result index0 slice_from_1 tl]. rewrite join_empty_sep. reflexivity.
Qed.

Lemma to_pascal_case_words (s w0 : py_str) (ws : list py_str) :
  split (re_sub_strip s) = w0 :: ws ->
  to_pascal_case s = Ok (concat (map capitalize (w0 :: ws))).
Proof.
  intros Hs. unfold to_pascal_case. rewrite (to_camel_case_words _ _ _ Hs).
  cbn [bind_result].
  assert (Hw : In w0 (split (re_sub_strip s))) by (rewrite Hs; left; reflexivity).
  destruct (words_alnum _ _ Hw) as [Hne _].
  destruct w0 as [|c rest]; [contradiction Hne; reflexivity|].
  simpl. rewrite upper_lower_char. reflexivity.
Qed.

Lemma to_kebab_case_words (s : py_str) :
  to_kebab_case s = join [hyphen] (map lower (split (re_sub_strip s))).
Proof. reflexivity. Qed.

(** X1: [to_camel_case] and [to_pascal_case] raise exactly on the inputs
    without a character of [a-zA-Z0-9], and then [IndexError]; on every
    other input both return a non-empty string. *)
Theorem case_forms_raise_iff (s : py_str) :
  (existsb is_alnum s = false ->
   to_camel_case s = Raise IndexError /\ to_pascal_case s = Raise IndexError) /\
  (existsb is_alnum s = true ->
   exists camel pascal,
     to_camel_case s = Ok camel /\ to_pascal_case s = Ok pascal /\
     camel <> [] /\ pascal <> []).
Proof.
  split; intros H.
  - apply to_camel_case_no_words, no_words_iff. exact H.
  - destruct (split (re_sub_strip s)) as [|w0 ws] eqn:Hs.
    + apply no_words_iff in Hs. congruence.
    + assert (Hw : In w0 (split (re_sub_strip s)))
        by (rewrite Hs; left; reflexivity).
      destruct (words_alnum _ _ Hw) as [Hne _].
      exists (lower w0 ++ concat (map capitalize ws)),
             (concat (map capitalize (w0 :: ws))).
      split; [apply to_camel_case_words; exact Hs|].
      split; [apply to_pascal_case_words; exact Hs|].
      destruct w0; [contradiction Hne; reflexivity|].
      split; discriminate.
Qed.

Lemma case_forms_raise_iff_witness :
  (to_camel_case (str "& /") = Raise IndexError /\
   to_pascal_case (str "& /") = Raise IndexError) /\
  (exists camel pascal,
     to_camel_case (str "scope & categorisation") = Ok camel /\
     to_pascal_case (str "scope & categorisation") = Ok pascal /\
     camel <> [] /\ pascal <> []).
Proof.
  split.
  - apply (proj1 (case_forms_raise_iff (str "& /"))). reflexivity.
  - apply (proj2 (case_forms_raise_iff (str "scope & categorisation"))).
    reflexivity.
Defined.

(** X2: the result of [to_camel_case] is the input's characters of
    [a-zA-Z0-9], in their order and number, with only their case changed;
    nothing is added between the tokens. *)
Theorem to_camel_case_content (s camel : py_str) :
  to_camel_case s = Ok camel ->
  lower camel = lower (filter is_alnum s) /\
  length camel = length (filter is_alnum s) /\
  Forall (fun c => is_alnum c = true) camel.
Proof.
  intros H.
  destruct (split (re_sub_strip s)) as [|w0 ws] eqn:Hs.
  - rewrite (proj1 (to_camel_case_no_words s Hs)) in H. discriminate.
  - rewrite (to_camel_case_words _ _ _ Hs) in H. injection H as <-.
    assert (Hlow : lower (lower w0 ++ concat (map capitalize ws))
                   = lower (filter is_alnum s)).
    { rewrite <- words_concat, Hs. simpl concat.
      rewrite !lower_app, !lower_concat, lower_idem, map_map.
      f_equal. f_equal. apply map_ext. exact lower_capitalize. }
    split; [exact Hlow|]. split.
    + apply (f_equal (@length char)) in Hlow. unfold lower in Hlow.
      rewrite !length_map in Hlow. exact Hlow.
    + assert (Hal : Forall (fun w => Forall (fun c => is_alnum c = true) w)
                           (w0 :: ws)).
      { rewrite Forall_forall. intros w Hw.
        apply (words_alnum s). rewrite Hs. exact Hw. }
      inversion Hal as [|? ? H0 Hrest]; subst.
      apply Forall_app. split.
      * generalize (lower_word_alnum _ H0). apply Forall_impl.
        exact lower_alnum_alnum.
      * apply Forall_concat. rewrite Forall_map.
        revert Hrest. apply Forall_impl. exact capitalize_alnum.
Qed.

Lemma to_camel_case_content_witness :
  lower (str "efdetailedG") = lower (filter is_alnum (str "EF/Detailed G")) /\
  length (str "efdetailedG") = length (filter is_alnum (str "EF/Detailed G")) /\
  Forall (fun c => is_alnum c = true) (str "efdetailedG").
Proof.
  apply (to_camel_case_content (str "EF/Detailed G")). reflexivity.
Defined.

(** X3: where [to_camel_case] returns, its result begins with a lower-case
    letter or a digit, and [to_pascal_case] returns the same string with
    that first character upper-cased, so beginning with an upper-case
    letter or a digit and agreeing with the camel form from the second
    character on. *)
Theorem case_forms_first_char (s camel : py_str) :
  to_camel_case s = Ok camel ->
  exists c rest,
    camel = c :: rest /\
    is_lower_alnum c = true /\
    to_pascal_case s = Ok (upper_char c :: rest) /\
    is_alnum (upper_char c) = true /\
    is_lower (upper_char c) = false.
Proof.
  intros H.
  destruct (split (re_sub_strip s)) as [|w0 ws] eqn:Hs.
  - rewrite (proj1 (to_camel_case_no_words s Hs)) in H. discriminate.
  - pose proof (to_pascal_case_of_camel _ _ H) as Hp.
    rewrite (to_camel_case_words _ _ _ Hs) in H. injection H as <-.
    assert (Hw : In w0 (split (re_sub_strip s)))
      by (rewrite Hs; left; reflexivity).
    destruct (words_alnum _ _ Hw) as [Hne Hal].
    destruct w0 as [|c0 r0]; [contradiction Hne; reflexivity|].
    inversion Hal as [|? ? Hc0 _]; subst.
    exists (lower_char c0), (lower r0 ++ concat (map capitalize ws)).
    split; [reflexivity|].
    split; [apply lower_char_lower_alnum; exact Hc0|].
    split; [exact Hp|].
    split; [|apply upper_char_not_lower].
    apply upper_char_alnum, lower_alnum_alnum, lower_char_lower_alnum.
    exact Hc0.
Qed.

Lemma case_forms_first_char_witness :
  exists c rest,
    str "3dModels" = c :: rest /\
    is_lower_alnum c = true /\
    to_pascal_case (str "3D models") = Ok (upper_char c :: rest) /\
    is_alnum (upper_char c) = true /\
    is_lower (upper_char c) = false.
Proof.
  apply (case_forms_first_char (str "3D models")). reflexivity.
Defined.

(** X4: [to_pascal_case] capitalizes every token: where the stripped input
    has tokens, the result is one piece per token, in order and without
    separator, each token's first character upper-cased and its other
    characters lower-cased. *)
Theorem to_pascal_case_tokens (s w0 : py_str) (ws : list py_str) :
  split (re_sub_strip s) = w0 :: ws ->
  exists pieces,
    to_pascal_case s = Ok (concat pieces) /\
    Forall2 (fun w piece =>
               exists c rest,
                 w = c :: rest /\ piece = upper_char c :: map lower_char rest)
            (w0 :: ws) pieces.
Proof.
  intros Hs. exists (map capitalize (w0 :: ws)).
  split; [apply to_pascal_case_words; exact Hs|].
  assert (Hne : Forall (fun w => w <> []) (w0 :: ws)).
  { rewrite Forall_forall. intros w Hw.
    apply (words_alnum s). rewrite Hs. exact Hw. }
  clear Hs. induction Hne as [|w l Hw _ IH]; [constructor|].
  cbn [map]. constructor; [|exact IH].
  destruct w as [|c rest]; [contradiction Hw; reflexivity|].
  exists c, rest. split; reflexivity.
Qed.

Lemma to_pascal_case_tokens_witness :
  exists pieces,
    to_pascal_case (str "GHG TYPE") = Ok (concat pieces) /\
    Forall2 (fun w piece =>
               exists c rest,
                 w = c :: rest /\ piece = upper_char c :: map lower_char rest)
            [str "GHG"; str "TYPE"] pieces.
Proof.
  apply (to_pascal_case_tokens (str "GHG TYPE")). reflexivity.
Defined.

Lemma filter_not_sep (sep : char) (w : py_str) :
  ~ In sep w -> filter (fun c => negb (N.eqb c sep)) w = w.
Proof.
  induction w as [|c w IH]; intros H; [reflexivity|]. simpl.
  destruct (N.eqb_spec c sep) as [->|_]; simpl.
  - exfalso. apply H. left. reflexivity.
  - rewrite IH; [reflexivity|]. intros Hin. apply H. right. exact Hin.
Qed.

(** Taking the separators out of a join gives the words end to end. *)
Lemma filter_join (sep : char) (ws : list py_str) :
  Forall (word_ok sep) ws ->
  filter (fun c => negb (N.eqb c sep)) (join [sep] ws) = concat ws.
Proof.
  induction ws as [|w [|q ps] IH]; intros Hws.
  - reflexivity.
  - inversion Hws as [|? ? [_ Hw] _]; subst. simpl.
    rewrite app_nil_r. apply filter_not_sep. exact Hw.
  - inversion Hws as [|? ? [_ Hw] Hrest]; subst.
    rewrite join_cons2, !filter_app. cbn [concat].
    f_equal; [exact (filter_not_sep _ _ Hw)|].
    cbn [filter]. rewrite N.eqb_refl. cbn [negb app]. exact (IH Hrest).
Qed.

(** The kebab form without its hyphens. *)
Lemma to_kebab_case_unhyphenated (s : py_str) :
  filter (fun c => negb (N.eqb c hyphen)) (to_kebab_case s)
  = lower (filter is_alnum s).
Proof.
  rewrite to_kebab_case_words.
  rewrite (filter_join _ _ (lowered_words_ok _ (lowered_words s))).
  rewrite <- lower_concat, words_concat. reflexivity.
Qed.

Lemma to_camel_case_lower (s camel : py_str) :
  to_camel_case s = Ok camel -> lower camel = lower (filter is_alnum s).
Proof.
  intros H.
  destruct (split (re_sub_strip s)) as [|w0 ws] eqn:Hs.
  - rewrite (proj1 (to_camel_case_no_words s Hs)) in H. discriminate.
  - rewrite (to_camel_case_words _ _ _ Hs) in H. injection H as <-.
    rewrite <- words_concat, Hs. simpl concat.
    rewrite !lower_app, !lower_concat, lower_idem, map_map.
    f_equal. f_equal. apply map_ext. exact lower_capitalize.
Qed.

(** X5: the kebab form with its hyphens taken out is the input's
    characters of [a-zA-Z0-9], lower-cased and in order; it is the camel
    form lower-cased, whenever there is a camel form. *)
Theorem to_kebab_case_content (s : py_str) :
  filter (fun c => negb (N.eqb c hyphen)) (to_kebab_case s)
    = lower (filter is_alnum s) /\
  (forall camel,
      to_camel_case s = Ok camel ->
      filter (fun c => negb (N.eqb c hyphen)) (to_kebab_case s) = lower camel).
Proof.
  split; [apply to_kebab_case_unhyphenated|].
  intros camel H. rewrite (to_camel_case_lower _ _ H).
  apply to_kebab_case_unhyphenated.
Qed.

Lemma to_kebab_case_content_witness :
  filter (fun c => negb (N.eqb c hyphen)) (to_kebab_case (str "Std Emission factors"))
  = lower (str "stdEmissionFactors").
Proof.
  apply (proj2 (to_kebab_case_content (str "Std Emission factors"))).
  reflexivity.
Defined.

(** A string without whitespace is its own single word, if not empty. *)
Lemma split_from_no_space (s cur : py_str) :
  no_space s ->
  split_from cur s = match rev cur ++ s with [] => [] | w => [w] end.
Proof.
  intros Hs. revert cur. induction Hs as [|c s Hc _ IH]; intros cur.
  - simpl. rewrite app_nil_r. destruct cur as [|x cur]; [reflexivity|].
    destruct (rev (x :: cur)) eqn:Hr; [|reflexivity].
    exfalso. exact (rev_cons_not_nil _ _ Hr).
  - simpl. rewrite Hc, IH. simpl. rewrite <- app_assoc. reflexivity.
Qed.

(** X6: [to_kebab_case] does not keep its own results: a second pass
    deletes the hyphens of the first, so it gives back the kebab form only
    when that form has no hyphen. *)
Theorem to_kebab_case_twice (s : py_str) :
  to_kebab_case (to_kebab_case s)
    = filter (fun c => negb (N.eqb c hyphen)) (to_kebab_case s) /\
  (In hyphen (to_kebab_case s) ->
   to_kebab_case (to_kebab_case s) <> to_kebab_case s).
Proof.
  assert (Hstrip : re_sub_strip (to_kebab_case s)
                   = filter (fun c => negb (N.eqb c hyphen)) (to_kebab_case s)).
  { unfold re_sub_strip. apply filter_ext_in. intros c Hc.
    rewrite to_kebab_case_words in Hc.
    destruct (join_in _ _ _ Hc) as [[<-|[]]|[w [Hw Hcw]]]; [reflexivity|].
    pose proof (lowered_words s) as Hlow. rewrite Forall_forall in Hlow.
    destruct (Hlow w Hw) as [_ Hal]. rewrite forallb_forall in Hal.
    specialize (Hal c Hcw).
    destruct (N.eqb_spec c hyphen) as [->|_]; [discriminate Hal|].
    unfold keep. rewrite (lower_alnum_alnum _ Hal). reflexivity. }
  assert (Heq : to_kebab_case (to_kebab_case s)
                = filter (fun c => negb (N.eqb c hyphen)) (to_kebab_case s)).
  { unfold to_kebab_case at 1. rewrite Hstrip, to_kebab_case_unhyphenated.
    assert (Hns : no_space (lower (filter is_alnum s))).
    { unfold no_space, lower. rewrite Forall_map, Forall_forall.
      intros c Hc. apply filter_In in Hc. destruct Hc as [_ Hc].
      apply lower_alnum_not_space, lower_char_lower_alnum. exact Hc. }
    unfold split. rewrite (split_from_no_space _ [] Hns). simpl rev. simpl app.
    destruct (lower (filter is_alnum s)) as [|c l] eqn:Hl; [reflexivity|].
    cbn [map join]. rewrite <- Hl. apply lower_idem. }
  split; [exact Heq|].
  intros Hin Hsame. rewrite Heq in Hsame. rewrite <- Hsame in Hin.
  apply filter_In in Hin. destruct Hin as [_ Hin].
  rewrite N.eqb_refl in Hin. discriminate.
Qed.

Lemma to_kebab_case_twice_witness :
  to_kebab_case (to_kebab_case (str "Unit Conversion"))
    <> to_kebab_case (str "Unit Conversion").
Proof.
  apply (proj2 (to_kebab_case_twice (str "Unit Conversion"))).
  vm_compute. do 4 right. left. reflexivity.
Defined.

(* ================================================================== *)
(** ** Whitespace and punctuation in a display name *)
(* ================================================================== *)

(** A whitespace character ends the word before it and starts a new
    scan after it. *)
Lemma split_from_app_space (s1 s2 cur : py_str) (sp : char) :
  is_space sp = true ->
  split_from cur (s1 ++ sp :: s2) = split_from cur s1 ++ split_from [] s2.
Proof.
  intros Hsp. revert cur. induction s1 as [|c s1 IH]; intros cur; simpl.
  - rewrite Hsp. destruct cur; reflexivity.
  - destruct (is_space c).
    + destruct cur; rewrite IH; reflexivity.
    + apply IH.
Qed.

Lemma space_kept (sp : char) : is_space sp = true -> keep sp = true.
Proof. intros H. unfold keep. rewrite H. apply orb_true_r. Qed.

Lemma words_app_space (s1 s2 : py_str) (sp : char) :
  is_space sp = true ->
  split (re_sub_strip (s1 ++ sp :: s2))
  = split (re_sub_strip s1) ++ split (re_sub_strip s2).
Proof.
  intros Hsp. unfold re_sub_strip. rewrite filter_app. simpl.
  rewrite (space_kept _ Hsp). apply split_from_app_space. exact Hsp.
Qed.

Lemma strip_drop (s1 s2 : py_str) (c : char) :
  keep c = false ->
  re_sub_strip (s1 ++ c :: s2) = re_sub_strip (s1 ++ s2).
Proof.
  intros Hc. unfold re_sub_strip. rewrite !filter_app. simpl.
  rewrite Hc. reflexivity.
Qed.

(** The three forms are functions of the words. *)
Lemma same_words_same_forms (a b : py_str) :
  split (re_sub_strip a) = split (re_sub_strip b) -> same_forms a b.
Proof.
  intros H. unfold same_forms, to_pascal_case, to_camel_case, to_kebab_case.
  rewrite H. repeat split; reflexivity.
Qed.

Lemma join_app (sep : py_str) (a b : list py_str) :
  a <> [] -> b <> [] ->
  join sep (a ++ b) = join sep a ++ sep ++ join sep b.
Proof.
  intros Ha Hb. induction a as [|p [|p' a'] IH]; [contradiction Ha; reflexivity| |].
  - destruct b as [|q b]; [contradiction Hb; reflexivity|]. reflexivity.
  - change ((p :: p' :: a') ++ b) with (p :: p' :: (a' ++ b)).
    rewrite !join_cons2.
    change (p' :: a' ++ b) with ((p' :: a') ++ b).
    rewrite IH by discriminate. rewrite <- !app_assoc. reflexivity.
Qed.

(** X7: a whitespace character between two parts that both have a token
    becomes exactly one hyphen between their kebab forms; next to a part
    without a token it leaves no hyphen. *)
Theorem to_kebab_case_space (s1 s2 : py_str) (sp : char) :
  is_space sp = true ->
  (existsb is_alnum s1 = true -> existsb is_alnum s2 = true ->
   to_kebab_case (s1 ++ sp :: s2)
   = to_kebab_case s1 ++ hyphen :: to_kebab_case s2) /\
  (existsb is_alnum s1 = false ->
   to_kebab_case (s1 ++ sp :: s2) = to_kebab_case s2) /\
  (existsb is_alnum s2 = false ->
   to_kebab_case (s1 ++ sp :: s2) = to_kebab_case s1).
Proof.
  intros Hsp. rewrite !to_kebab_case_words, (words_app_space _ _ _ Hsp), map_app.
  split; [|split].
  - intros H1 H2. apply join_app.
    + intros Hnil. apply map_eq_nil in Hnil. apply no_words_iff in Hnil. congruence.
    + intros Hnil. apply map_eq_nil in Hnil. apply no_words_iff in Hnil. congruence.
  - intros H1. apply no_words_iff in H1. rewrite H1. reflexivity.
  - intros H2. apply no_words_iff in H2. rewrite H2, app_nil_r. reflexivity.
Qed.

Lemma to_kebab_case_space_witness :
  to_kebab_case (str "Unit" ++ 160%N :: str "Conversion")
  = to_kebab_case (str "Unit") ++ hyphen :: to_kebab_case (str "Conversion").
Proof.
  apply (proj1 (to_kebab_case_space (str "Unit") (str "Conversion") 160%N eq_refl));
    reflexivity.
Defined.

(** X8: the camel form of two parts separated by a whitespace character is
    the camel form of the first followed by the pascal form of the second,
    and the pascal form is the two pascal forms one after the other. *)
Theorem to_camel_case_space (s1 s2 camel1 pascal1 pascal2 : py_str) (sp : char) :
  is_space sp = true ->
  to_camel_case s1 = Ok camel1 ->
  to_pascal_case s1 = Ok pascal1 ->
  to_pascal_case s2 = Ok pascal2 ->
  to_camel_case (s1 ++ sp :: s2) = Ok (camel1 ++ pascal2) /\
  to_pascal_case (s1 ++ sp :: s2) = Ok (pascal1 ++ pascal2).
Proof.
  intros Hsp Hc1 Hp1 Hp2.
  destruct (split (re_sub_strip s1)) as [|w0 ws] eqn:Hs1.
  { rewrite (proj1 (to_camel_case_no_words s1 Hs1)) in Hc1. discriminate. }
  destruct (split (re_sub_strip s2)) as [|v0 vs] eqn:Hs2.
  { rewrite (proj2 (to_camel_case_no_words s2 Hs2)) in Hp2. discriminate. }
  rewrite (to_camel_case_words _ _ _ Hs1) in Hc1. injection Hc1 as <-.
  rewrite (to_pascal_case_words _ _ _ Hs1) in Hp1. injection Hp1 as <-.
  rewrite (to_pascal_case_words _ _ _ Hs2) in Hp2. injection Hp2 as <-.
  assert (Hs : split (re_sub_strip (s1 ++ sp :: s2)) = w0 :: (ws ++ v0 :: vs)).
  { rewrite (words_app_space _ _ _ Hsp), Hs1, Hs2. reflexivity. }
  rewrite (to_camel_case_words _ _ _ Hs), (to_pascal_case_words _ _ _ Hs).
  change (w0 :: ws ++ v0 :: vs) with ((w0 :: ws) ++ v0 :: vs).
  rewrite !map_app, !concat_app, app_assoc. split; reflexivity.
Qed.

Lemma to_camel_case_space_witness :
  to_camel_case (str "Standard ECM" ++ 32%N :: str "catalog")
    = Ok (str "standardEcm" ++ str "Catalog") /\
  to_pascal_case (str "Standard ECM" ++ 32%N :: str "catalog")
    = Ok (str "StandardEcm" ++ str "Catalog").
Proof.
  apply (to_camel_case_space (str "Standard ECM") (str "catalog")
           (str "standardEcm") (str "StandardEcm") (str "Catalog") 32%N);
    reflexivity.
Defined.

(** X9: whitespace at the start or the end of a display name, and a
    whitespace character next to another, change none of the three
    forms. *)
Theorem forms_ignore_extra_space (s s1 s2 : py_str) (sp sp' : char) :
  is_space sp = true ->
  is_space sp' = true ->
  same_forms (sp :: s) s /\
  same_forms (s ++ [sp]) s /\
  same_forms (s1 ++ sp :: sp' :: s2) (s1 ++ sp :: s2).
Proof.
  intros Hsp Hsp'. split; [|split]; apply same_words_same_forms.
  - apply (words_app_space [] s sp Hsp).
  - rewrite (words_app_space s [] sp Hsp). apply app_nil_r.
  - rewrite (words_app_space s1 (sp' :: s2) sp Hsp),
            (words_app_space s1 s2 sp Hsp).
    f_equal. apply (words_app_space [] s2 sp' Hsp').
Qed.

Lemma forms_ignore_extra_space_witness :
  same_forms (9%N :: str "Unit") (str "Unit") /\
  same_forms (str "Unit" ++ [9%N]) (str "Unit") /\
  same_forms (str "Unit" ++ 9%N :: 12288%N :: str "Conversion")
             (str "Unit" ++ 9%N :: str "Conversion").
Proof.
  apply (forms_ignore_extra_space (str "Unit") (str "Unit") (str "Conversion")
           9%N 12288%N); reflexivity.
Defined.

(** X10: a character outside [a-zA-Z0-9] and whitespace is deleted, not
    read as a separator: the three forms are those of the name without
    that character, so the characters on either side of it stay in one
    token. *)
Theorem forms_ignore_punctuation (s1 s2 : py_str) (c : char) :
  keep c = false ->
  same_forms (s1 ++ c :: s2) (s1 ++ s2).
Proof.
  intros Hc. apply same_words_same_forms.
  rewrite (strip_drop _ _ _ Hc). reflexivity.
Qed.

Lemma forms_ignore_punctuation_witness :
  same_forms (str "EF" ++ 47%N :: str "Detailed G") (str "EF" ++ str "Detailed G").
Proof.
  apply (forms_ignore_punctuation (str "EF") (str "Detailed G") 47%N).
  reflexivity.
Defined.

(* ================================================================== *)
(** ** More on the manifest *)
(* ================================================================== *)

(** A descriptor whose name has no token stops the loop before anything
    is printed for it. *)
Lemma report_table_raises (t : table_config) (w : world) :
  split (re_sub_strip (name t)) = [] ->
  report_table t w = (Raise IndexError, w).
Proof.
  intros H. unfold report_table, bind, lift.
  rewrite (proj1 (to_camel_case_no_words _ H)). reflexivity.
Qed.

Lemma for_each_report_table_raises (pre post : list table_config)
    (t : table_config) (w : world) :
  Forall (fun u => split (re_sub_strip (name u)) <> []) pre ->
  split (re_sub_strip (name t)) = [] ->
  exists blocks,
    Forall2 manifest_block pre blocks /\
    for_each (pre ++ t :: post) report_table w
      = (Raise IndexError, {| stdout := stdout w ++ concat blocks;
                              schema_file := schema_file w |}).
Proof.
  intros Hpre Ht. revert w. induction Hpre as [|u pre Hu _ IH]; intros w.
  - exists []. split; [constructor|]. cbn [app for_each]. unfold bind.
    rewrite (report_table_raises t w Ht). cbn [concat].
    rewrite app_nil_r. destruct w; reflexivity.
  - destruct (case_forms_exist _ Hu) as [camel [pascal [Hc Hp]]].
    destruct (report_table_run u camel pascal w Hc Hp) as [rl [H1 [H2 Hrun]]].
    destruct (IH {| stdout := stdout w ++ artifact_lines u camel pascal rl;
                    schema_file := schema_file w |}) as [blocks [Hb Hloop]].
    exists (artifact_lines u camel pascal rl :: blocks). split.
    + constructor; [|exact Hb]. exists camel, pascal, rl. auto.
    + cbn [app for_each]. unfold bind at 1. rewrite Hrun, Hloop.
      cbn [stdout schema_file concat]. rewrite <- app_assoc. reflexivity.
Qed.

(** The header goes out first, whatever the loop does afterwards. *)
Lemma report_header_then_loop (tables : list table_config) (w : world) :
  report tables w
  = for_each tables report_table
      {| stdout := stdout w ++ header_lines (length tables);
         schema_file := schema_file w |}.
Proof.
  unfold report, print_header, bind, print, header_lines.
  cbn [stdout schema_file]. repeat rewrite <- app_assoc. reflexivity.
Qed.

(** X11: a descriptor whose display name has no character of
    [a-zA-Z0-9] makes the report raise [IndexError]; by then the header
    and the blocks of the descriptors before it are printed, and nothing
    for it or for the descriptors after it. *)
Theorem report_stops_at_empty_name (pre post : list table_config)
    (t : table_config) (w : world) :
  Forall (fun u => existsb is_alnum (name u) = true) pre ->
  existsb is_alnum (name t) = false ->
  exists blocks,
    Forall2 manifest_block pre blocks /\
    report (pre ++ t :: post) w
      = (Raise IndexError,
         {| stdout := stdout w ++ header_lines (length (pre ++ t :: post))
                        ++ concat blocks;
            schema_file := schema_file w |}).
Proof.
  intros Hpre Ht.
  assert (Hpre' : Forall (fun u => split (re_sub_strip (name u)) <> []) pre).
  { revert Hpre. apply Forall_impl. intros u Hu Hnil.
    apply no_words_iff in Hnil. congruence. }
  apply no_words_iff in Ht.
  destruct (for_each_report_table_raises pre post t
              {| stdout := stdout w ++ header_lines (length (pre ++ t :: post));
                 schema_file := schema_file w |} Hpre' Ht)
    as [blocks [Hb Hloop]].
  exists blocks. split; [exact Hb|].
  rewrite report_header_then_loop, Hloop. cbn [stdout schema_file].
  rewrite <- app_assoc. reflexivity.
Qed.

Lemma report_stops_at_empty_name_witness :
  exists blocks,
    Forall2 manifest_block [nth 2 TABLES (TableConfig [] [] [] [] [] [] [] [])] blocks /\
    report ([nth 2 TABLES (TableConfig [] [] [] [] [] [] [] [])]
              ++ TableConfig (str "&/") [] [] [] [] [] [] []
              :: [nth 4 TABLES (TableConfig [] [] [] [] [] [] [] [])]) fresh
      = (Raise IndexError,
         {| stdout := stdout fresh ++ header_lines 3 ++ concat blocks;
            schema_file := schema_file fresh |}).
Proof.
  apply (report_stops_at_empty_name
           [nth 2 TABLES (TableConfig [] [] [] [] [] [] [] [])]
           [nth 4 TABLES (TableConfig [] [] [] [] [] [] [] [])]
           (TableConfig (str "&/") [] [] [] [] [] [] []) fresh).
  - repeat constructor.
  - reflexivity.
Defined.





Lemma report_table_same_inputs (t t' : table_config) (w : world) :
  same_manifest_inputs t t' -> report_table t w = report_table t' w.
Proof.
  intros [Hn [Hr Hl]]. unfold report_table. rewrite Hn, Hr.
  destruct (relationships t) as [|r rs], (relationships t') as [|r' rs'];
    try discriminate; [reflexivity|].
  rewrite Hl. reflexivity.
Qed.

(** X13: the report reads the display name, the route path and the number
    of relationships of a descriptor and nothing else: descriptor lists
    that agree on these, entry by entry, give the same run, whatever
    their table name, entity names, page path, navigation name and
    relationship entries are. *)
Theorem report_reads_three_fields (tables tables' : list table_config) (w : world) :
  Forall2 same_manifest_inputs tables tables' ->
  report tables w = report tables' w.
Proof.
  intros H. rewrite !report_header_then_loop.
  rewrite <- (Forall2_length H).
  generalize ({| stdout := stdout w ++ header_lines (length tables);
                 schema_file := schema_file w |}).
  induction H as [|t t' tables tables' Ht _ IH]; intros w1; [reflexivity|].
  cbn [for_each]. unfold bind. rewrite (report_table_same_inputs t t' w1 Ht).
  destruct (report_table t' w1) as [[[]|e] w2]; [apply IH | reflexivity].
Qed.

Lemma report_reads_three_fields_witness :
  report [TableConfig (str "Unit") (str "Unit") (str "Unit") (str "Units")
            (str "unit") (str "unit") (str "Unit") [rel "Scope"]] fresh
  = report [TableConfig (str "Unit") [] [] [] (str "unit") [] []
              [rel "Activity Density"]] fresh.
Proof.
  apply (report_reads_three_fields
           [TableConfig (str "Unit") (str "Unit") (str "Unit") (str "Units")
              (str "unit") (str "unit") (str "Unit") [rel "Scope"]]
           [TableConfig (str "Unit") [] [] [] (str "unit") [] []
              [rel "Activity Density"]] fresh).
  repeat constructor.
Defined.

(* ================================================================== *)
(** ** More on the schema extractor *)
(* ================================================================== *)










Lemma main_raises_at_fetch (format : jvalue -> py_str) (response : Response)
    (w : world) (e : exn) :
  get_all_tables response w = (Raise e, w) ->
  GetCompanySchema.main format response w = (Raise e, w).
Proof.
  intros Hg. unfold GetCompanySchema.main. unfold bind at 1. rewrite Hg.
  reflexivity.
Qed.

Lemma main_raises_at_selection (format : jvalue -> py_str) (response : Response)
    (w : world) (v : jvalue) (e : exn) :
  get_all_tables response w = (Ok v, w) ->
  (select COMPANY_TABLE_ID v = Raise e \/
   exists c, select COMPANY_TABLE_ID v = Ok c /\ select DIVISION_TABLE_ID v = Raise e) ->
  GetCompanySchema.main format response w = (Raise e, w).
Proof.
  intros Hg H. unfold GetCompanySchema.main. unfold bind at 1. rewrite Hg.
  unfold bind at 1, lift at 1. destruct H as [Hc|[c [Hc Hd]]]; rewrite Hc.
  - reflexivity.
  - unfold bind at 1, lift at 1. rewrite Hd. reflexivity.
Qed.

(** With status 200, [get_all_tables] prints nothing. *)
Lemma get_all_tables_200 (response : Response) (w : world) :
  status_code response = 200%Z ->
  get_all_tables response w
  = (bind_result (json response) (fun body => py_get body (str "tables") (JArr [])), w).
Proof.
  intros Hs. unfold get_all_tables. rewrite Hs, Z.eqb_refl.
  unfold bind, lift. destruct (json response) as [body|e]; reflexivity.
Qed.




(** X16: a 200 response that cannot be used stops the run with nothing
    printed and no file written: a body that does not decode raises the
    decoder's exception, a body that is not an object raises
    [AttributeError], a [tables] field that cannot be iterated raises
    [TypeError]. *)
Theorem main_unusable_body (format : jvalue -> py_str) (response : Response)
    (w : world) :
  status_code response = 200%Z ->
  (forall e, json response = Raise e ->
     GetCompanySchema.main format response w = (Raise e, w)) /\
  (forall body, json response = Ok body -> is_object body = false ->
     GetCompanySchema.main format response w = (Raise AttributeError, w)) /\
  (forall items e, json response = Ok (JObj items) ->
     py_iter (tables_field items) = Raise e ->
     GetCompanySchema.main format response w = (Raise e, w)).
Proof.
  intros Hs. pose proof (get_all_tables_200 response w Hs) as Hg.
  split; [|split].
  - intros e Hj. apply main_raises_at_fetch. rewrite Hg, Hj. reflexivity.
  - intros body Hj Hb. apply main_raises_at_fetch. rewrite Hg, Hj.
    destruct body; try reflexivity. discriminate.
  - intros items e Hj Hit.
    apply (main_raises_at_selection _ _ _ (tables_field items)).
    + apply get_all_tables_ok; assumption.
    + left. unfold select. rewrite Hit. reflexivity.
Qed.

Lemma main_unusable_body_witness :
  GetCompanySchema.main (fun _ => []) null_tables_response fresh
  = (Raise TypeError, fresh).
Proof.
  apply (proj2 (proj2 (main_unusable_body (fun _ => []) null_tables_response
                         fresh eq_refl))
           [ (str "tables", JNull) ] TypeError); reflexivity.
Defined.

(** X17: the scan for an identifier is lazy and stops at the first match:
    after objects that do not carry the identifier, an object that
    carries it is selected whatever follows it, even elements that are
    not objects; an element that is not an object raises
    [AttributeError] when the scan reaches it. *)
Theorem select_scan (wanted : py_str) (pre post : list jvalue) :
  Forall (fun u => is_object u = true /\ has_id wanted u = false) pre ->
  (forall t, has_id wanted t = true ->
     select wanted (JArr (pre ++ t :: post)) = Ok (Some t)) /\
  (forall u, is_object u = false ->
     select wanted (JArr (pre ++ u :: post)) = Raise AttributeError).
Proof.
  intros Hpre. unfold select. cbn [py_iter bind_result].
  induction Hpre as [|p pre [Hobj Hno] _ [IH1 IH2]].
  - split.
    + intros t Ht. destruct t as [| | | | | |items]; try discriminate.
      destruct (get_id_has_id wanted items) as [v [Hget Heq]].
      cbn [app next_with_id]. rewrite Hget, Heq, Ht. reflexivity.
    + intros u Hu. destruct u; try reflexivity. discriminate.
  - destruct p as [| | | | | |items]; try discriminate.
    destruct (get_id_has_id wanted items) as [v [Hget Heq]].
    split.
    + intros t Ht. cbn [app next_with_id]. rewrite Hget, Heq, Hno.
      apply IH1. exact Ht.
    + intros u Hu. cbn [app next_with_id]. rewrite Hget, Heq, Hno.
      apply IH2. exact Hu.
Qed.

Lemma select_scan_witness :
  select COMPANY_TABLE_ID (JArr junk_after_match) = Ok (Some company_table) /\
  select COMPANY_TABLE_ID (JArr junk_before_match) = Raise AttributeError.
Proof.
  split.
  - apply (proj1 (select_scan COMPANY_TABLE_ID [other_table]
                    [JStr (str "junk"); JNull]
                    ltac:(repeat constructor)) company_table).
    reflexivity.
  - apply (proj2 (select_scan COMPANY_TABLE_ID [other_table] [company_table]
                    ltac:(repeat constructor)) JNull).
    reflexivity.
Defined.

Lemma py_get_object (items : list (py_str * jvalue)) (key : py_str)
    (default : jvalue) :
  py_get (JObj items) key default
  = Ok (match lookup key items with Some v => v | None => default end).
Proof. unfold py_get. destruct (lookup key items); reflexivity. Qed.

(** X18: the summary of a selected table prints its name and field count,
    then its identifier, then (for the company table only) its primary
    field; a missing key is shown as [None] is, a missing [fields] entry
    counts as zero fields, and a [fields] entry without a length raises
    before any of these lines is printed.  Nothing is printed for an
    absent selection. *)
Theorem summary_lines (format : jvalue -> py_str) (label : string)
    (with_primary : bool) (items : list (py_str * jvalue)) (w : world) :
  items <> [] ->
  (forall n,
      py_len (match lookup (str "fields") items with
              | Some v => v
              | None => JArr []
              end) = Ok n ->
      summary format label with_primary (Some (JObj items)) w
      = (Ok tt,
         {| stdout :=
              stdout w
              ++ [ str label ++ str " table: "
                     ++ format (of_option (lookup (str "name") items))
                     ++ str " - " ++ str_of_nat n ++ str " fields";
                   str "  Table ID: "
                     ++ format (of_option (lookup (str "id") items)) ]
              ++ (if with_primary
                  then [ str "  Primary Field ID: "
                           ++ format (of_option (lookup (str "primaryFieldId") items)) ]
                  else []);
            schema_file := schema_file w |})) /\
  (forall e,
      py_len (match lookup (str "fields") items with
              | Some v => v
              | None => JArr []
              end) = Raise e ->
      summary format label with_primary (Some (JObj items)) w = (Raise e, w)) /\
  summary format label with_primary None w = (Ok tt, w).
Proof.
  intros Hne. destruct items as [|kv items']; [contradiction Hne; reflexivity|].
  unfold summary. cbn [selected of_option].
  unfold shown, field_count, bind, lift, ret.
  rewrite !py_get_object.
  split; [|split; [|reflexivity]].
  - intros n Hn. rewrite Hn. unfold print. cbn [stdout schema_file].
    destruct with_primary; cbn [stdout schema_file];
      rewrite <- ?app_assoc; reflexivity.
  - intros e He. rewrite He. reflexivity.
Qed.

Lemma summary_lines_witness :
  summary (fun _ => str "None") "Division" false
    (Some (JObj [ (str "id", JStr DIVISION_TABLE_ID) ])) fresh
  = (Ok tt,
     {| stdout := [ str "Division table: None - 0 fields";
                    str "  Table ID: None" ];
        schema_file := None |}).
Proof.
  apply (proj1 (summary_lines (fun _ => str "None") "Division" false
                  [ (str "id", JStr DIVISION_TABLE_ID) ] fresh
                  ltac:(discriminate)) 0).
  reflexivity.
Defined.
